(** * Search Tabs popup: filter state, data fetchers, keyboard router

    A shallow embedding of [source/Popup/Popup.tsx] (the final revision of the
    component: the one with the four data sources, the filter buttons and the
    quick actions) together with the properties its specification states.

    Conventions of the embedding
    - a JavaScript string is a [string] holding its UTF-8 bytes, generalized
      so that a lone surrogate is the three bytes it would encode to (the
      first is ED, the second lies in A0..BF); of the code only ASCII
      characters are ever inspected, and the one place where the encoding
      matters is [encodeURIComponent];
    - an optional field [f?: T] is an [option T]; JavaScript truthiness is
      written out ([truthy_flag], [truthy_num], [truthy_str]);
    - a timestamp (a JavaScript number) is a [Z];
    - an [async] function is a computation in the monad [Async]: it reads the
      host, threads the component state and the trace of side effects, and
      either resolves or rejects. *)

From Stdlib Require Import Bool List ZArith Lia Ascii String.
From Stdlib Require Import Sorting.Sorted Sorting.Permutation.
Import ListNotations.

Local Open Scope string_scope.
Local Open Scope Z_scope.

Set Implicit Arguments.

(** ** Data model *)

Module MutedInfo.
Record t : Type := mk { muted : bool }.
End MutedInfo.

(** [interface TabItem].  The records come from the host by a cast
    ([tabs as TabItem[]], [session.tab as TabItem]); the host's own tab type
    has [url] and [title] optional and the component guards every use of
    [url] (a default after [tab.url ||], a guard [tab.url &&]), so [url] is
    optional here. *)
Module TabItem.
Record t : Type := mk {
  id : option Z;
  title : string;
  url : option string;
  favIconUrl : option string;
  lastAccessed : option Z;
  active : option bool;
  audible : option bool;
  mutedInfo : option MutedInfo.t
}.
End TabItem.

Module HistoryItem.
Record t : Type := mk {
  id : string;
  url : option string;
  title : option string;
  lastVisitTime : option Z;
  visitCount : option Z;
  typedCount : option Z
}.
End HistoryItem.

Module BookmarkItem.
Record t : Type := mk {
  id : string;
  url : option string;
  title : string;
  dateAdded : option Z
}.
End BookmarkItem.

(** The state behind [React.useState<{all, tab, history, bookmark}>]. *)
Module Filters.
Record t : Type := mk {
  all : bool;
  tab : bool;
  history : bool;
  bookmark : bool
}.

(** The initial value passed to [useState]. *)
Definition initial : t := mk true false false false.
End Filters.

(** The argument type ["all" | "tab" | "history" | "bookmark"]. *)
Inductive FilterName : Type := FAll | FTab | FHistory | FBookmark.

(** [filters[filter]] *)
Definition getFilter (f : Filters.t) (k : FilterName) : bool :=
  match k with
  | FAll => Filters.all f
  | FTab => Filters.tab f
  | FHistory => Filters.history f
  | FBookmark => Filters.bookmark f
  end.

(** The object spread [{...filters, all: false, [filter]: v}]: [all] is
    written first, the computed key after it. *)
Definition setFilter (f : Filters.t) (k : FilterName) (v : bool) : Filters.t :=
  match k with
  | FAll => Filters.mk v (Filters.tab f) (Filters.history f) (Filters.bookmark f)
  | FTab => Filters.mk (Filters.all f) v (Filters.history f) (Filters.bookmark f)
  | FHistory => Filters.mk (Filters.all f) (Filters.tab f) v (Filters.bookmark f)
  | FBookmark => Filters.mk (Filters.all f) (Filters.tab f) (Filters.history f) v
  end.

(** [handleFilterClick]: the value handed to [setFilters], as a function of
    the current [filters]. *)
Definition handleFilterClick (filters : Filters.t) (filter : FilterName)
  : Filters.t :=
  match filter with
  | FAll => Filters.mk true false false false
  | _ =>
      let newFilters :=
        setFilter (setFilter filters FAll false) filter
                  (negb (getFilter filters filter)) in
      (* If no filters selected, default to all *)
      if negb (Filters.tab newFilters) && negb (Filters.history newFilters)
         && negb (Filters.bookmark newFilters)
      then setFilter newFilters FAll true
      else newFilters
  end.

(** The invariant of the data model: [all] is set iff no specific flag is. *)
Definition filters_inv (f : Filters.t) : Prop :=
  Filters.all f = true <->
  (Filters.tab f = false /\ Filters.history f = false
   /\ Filters.bookmark f = false).

Definition specific (k : FilterName) : Prop := k <> FAll.

(** [k] is the one specific flag that is set. *)
Definition only_active (f : Filters.t) (k : FilterName) : Prop :=
  getFilter f k = true /\
  forall k', specific k' -> k' <> k -> getFilter f k' = false.

(** ** Regular expressions

    The two regular-expression literals of the component use character
    classes, concatenation, [?], [+], [*], [{2,6}] and the anchors [^] and
    [$]; they have no back-references, look-around or flags.  For such an
    expression [RegExp.prototype.test] answers whether some way of matching
    exists, that is, membership in the language of the expression, which is
    decided here with derivatives. *)
Module RegExp.

(** A class range [lo-hi]; a single character [c] is the range [c-c]. *)
Definition range : Type := (ascii * ascii)%type.

Definition in_range (c : ascii) (r : range) : bool :=
  ((N_of_ascii (fst r) <=? N_of_ascii c)
   && (N_of_ascii c <=? N_of_ascii (snd r)))%N.

Definition in_class (cs : list range) (c : ascii) : bool :=
  existsb (in_range c) cs.

Inductive t : Type :=
| Fail                       (* matches nothing *)
| Eps                        (* the empty pattern *)
| Class (cs : list range)    (* [...] *)
| Cat (a b : t)              (* ab *)
| Alt (a b : t)              (* a|b *)
| Star (a : t).              (* a* *)

Definition Chr (c : ascii) : t := Class [(c, c)].
Definition Opt (a : t) : t := Alt a Eps.
Definition Plus (a : t) : t := Cat a (Star a).

Fixpoint Lit (s : string) : t :=
  match s with
  | EmptyString => Eps
  | String c s' => Cat (Chr c) (Lit s')
  end.

(** [a{0,k}] *)
Fixpoint UpTo (k : nat) (a : t) : t :=
  match k with
  | O => Eps
  | S k' => Opt (Cat a (UpTo k' a))
  end.

(** [a{n,n+k}] *)
Fixpoint Rep (n k : nat) (a : t) : t :=
  match n with
  | O => UpTo k a
  | S n' => Cat a (Rep n' k a)
  end.

Definition range_eqb (x y : range) : bool :=
  Ascii.eqb (fst x) (fst y) && Ascii.eqb (snd x) (snd y).

Fixpoint class_eqb (xs ys : list range) : bool :=
  match xs, ys with
  | [], [] => true
  | x :: xs', y :: ys' => range_eqb x y && class_eqb xs' ys'
  | _, _ => false
  end.

Fixpoint eqb (x y : t) : bool :=
  match x, y with
  | Fail, Fail => true
  | Eps, Eps => true
  | Class cs, Class ds => class_eqb cs ds
  | Cat a b, Cat c d => eqb a c && eqb b d
  | Alt a b, Alt c d => eqb a c && eqb b d
  | Star a, Star b => eqb a b
  | _, _ => false
  end.

Fixpoint nullable (r : t) : bool :=
  match r with
  | Fail => false
  | Eps => true
  | Class _ => false
  | Cat a b => nullable a && nullable b
  | Alt a b => nullable a || nullable b
  | Star _ => true
  end.

(** Concatenation and alternation that drop dead and duplicate branches,
    so that derivatives stay small. *)
Definition mkCat (a b : t) : t :=
  match a, b with
  | Fail, _ => Fail
  | _, Fail => Fail
  | Eps, _ => b
  | _, Eps => a
  | _, _ => Cat a b
  end.

Definition mkAlt (a b : t) : t :=
  match a, b with
  | Fail, _ => b
  | _, Fail => a
  | _, _ => if eqb a b then a else Alt a b
  end.

Fixpoint deriv (c : ascii) (r : t) : t :=
  match r with
  | Fail => Fail
  | Eps => Fail
  | Class cs => if in_class cs c then Eps else Fail
  | Cat a b =>
      if nullable a
      then mkAlt (mkCat (deriv c a) b) (deriv c b)
      else mkCat (deriv c a) b
  | Alt a b => mkAlt (deriv c a) (deriv c b)
  | Star a => mkCat (deriv c a) (Star a)
  end.

(** [/^r$/.test(s)] *)
Fixpoint matches (r : t) (s : list ascii) : bool :=
  match s with
  | [] => nullable r
  | c :: s' => matches (deriv c r) s'
  end.

(** [/^r/.test(s)]: some prefix of [s] matches. *)
Fixpoint matches_prefix (r : t) (s : list ascii) : bool :=
  nullable r ||
  match s with
  | [] => false
  | c :: s' => matches_prefix (deriv c r) s'
  end.

(** The language of an expression. *)
Inductive Lang : t -> list ascii -> Prop :=
| L_eps : Lang Eps []
| L_class cs c : in_class cs c = true -> Lang (Class cs) [c]
| L_cat a b s1 s2 : Lang a s1 -> Lang b s2 -> Lang (Cat a b) (s1 ++ s2)
| L_alt_l a b s : Lang a s -> Lang (Alt a b) s
| L_alt_r a b s : Lang b s -> Lang (Alt a b) s
| L_star_nil a : Lang (Star a) []
| L_star_cons a s1 s2 :
    Lang a s1 -> Lang (Star a) s2 -> Lang (Star a) (s1 ++ s2).

(** [\d], [a-z], [A-Z] and [\w] as class items. *)
Definition digit : list range := [("0", "9")]%char.
Definition lower : list range := [("a", "z")]%char.
Definition upper : list range := [("A", "Z")]%char.
Definition word : list range := upper ++ lower ++ digit ++ [("_", "_")]%char.
Definition one (c : ascii) : list range := [(c, c)].

End RegExp.

(** [https?:\/\/] *)
Definition scheme_re : RegExp.t :=
  RegExp.Cat (RegExp.Lit "http")
    (RegExp.Cat (RegExp.Opt (RegExp.Chr "s")) (RegExp.Lit "://")).

(** [[\da-z.-]] *)
Definition host_class : list RegExp.range :=
  (RegExp.digit ++ RegExp.lower ++ RegExp.one "." ++ RegExp.one "-")%list.

(** [[a-z.]] *)
Definition tld_class : list RegExp.range :=
  (RegExp.lower ++ RegExp.one ".")%list.

(** [[/\w .-]] *)
Definition path_class : list RegExp.range :=
  (RegExp.one "/" ++ RegExp.word ++ RegExp.one " " ++ RegExp.one "."
   ++ RegExp.one "-")%list.

(** The body of the literal in [isUrl], between its anchors: an optional
    scheme, one or more host characters, a dot, two to six characters of
    [[a-z.]], any number of runs of path characters, an optional slash. *)
Definition url_re : RegExp.t :=
  RegExp.Cat (RegExp.Opt scheme_re)
    (RegExp.Cat (RegExp.Plus (RegExp.Class host_class))
      (RegExp.Cat (RegExp.Chr ".")
        (RegExp.Cat (RegExp.Rep 2 4 (RegExp.Class tld_class))
          (RegExp.Cat (RegExp.Star (RegExp.Star (RegExp.Class path_class)))
                      (RegExp.Opt (RegExp.Chr "/")))))).

(** [isUrl]: [/^...$/.test(value)] *)
Definition isUrl (value : string) : bool :=
  RegExp.matches url_re (list_ascii_of_string value).

(** [url.match(/^https?:\/\//)], as the truth value the conditional uses. *)
Definition has_http_scheme (url : string) : bool :=
  RegExp.matches_prefix scheme_re (list_ascii_of_string url).

(** ** Platform functions *)

(** A thrown value, or the reason a promise is rejected with. *)
Inductive Error : Type :=
| TypeError (msg : string)
| URIError (msg : string)
| HostError (msg : string).

(** The outcome of an expression that may throw, or of an awaited promise. *)
Inductive Result (A : Type) : Type :=
| Ok (a : A)
| Err (e : Error).
Arguments Ok {A} a.
Arguments Err {A} e.

(** Truthiness of [x?: boolean], [x?: number], [x?: string] and of a string. *)
Definition truthy_flag (o : option bool) : bool :=
  match o with Some b => b | None => false end.

Definition truthy_num (o : option Z) : bool :=
  match o with Some n => negb (n =? 0)%Z | None => false end.

Definition str_truthy (s : string) : bool := negb (String.eqb s "").

Definition truthy_str (o : option string) : bool :=
  match o with Some s => str_truthy s | None => false end.

(** [o || 0] for [o?: number] *)
Definition or0 (o : option Z) : Z :=
  match o with Some n => if truthy_num o then n else 0 | None => 0 end.

(** [String.prototype.startsWith] *)
Definition startsWith (s p : string) : bool := String.prefix p s.

(** [encodeURIComponent].  Letters, digits and [- _ . ! ~ * ' ( )] stay,
    every other byte of the UTF-8 encoding becomes [%XX] with upper-case
    hexadecimal digits; a string that holds a lone surrogate has no UTF-8
    encoding, and the function throws [URIError]. *)
Definition uri_unreserved (c : ascii) : bool :=
  RegExp.in_class
    (RegExp.upper ++ RegExp.lower ++ RegExp.digit ++ RegExp.one "-"
     ++ RegExp.one "_" ++ RegExp.one "." ++ RegExp.one "!" ++ RegExp.one "~"
     ++ RegExp.one "*" ++ RegExp.one "'" ++ RegExp.one "("
     ++ RegExp.one ")")%list c.

Definition hex_digit (n : N) : ascii :=
  ascii_of_N (if (n <? 10)%N then 48 + n else 55 + n)%N.

Definition percent_encode (c : ascii) : string :=
  String "%"
    (String (hex_digit (N_of_ascii c / 16))
       (String (hex_digit (N_of_ascii c mod 16)) EmptyString)).

Fixpoint encodeBytes (s : string) : string :=
  match s with
  | EmptyString => EmptyString
  | String c s' =>
      (if uri_unreserved c then String c EmptyString else percent_encode c)
      ++ encodeBytes s'
  end.

(** The bytes of a surrogate start here: ED, then a byte of A0..BF.  (A
    surrogate pair is one code point and has a four-byte encoding.) *)
Definition surrogate_at (c : ascii) (s' : string) : bool :=
  (N_of_ascii c =? 237)%N
  && match s' with
     | EmptyString => false
     | String d _ => (160 <=? N_of_ascii d)%N && (N_of_ascii d <=? 191)%N
     end.

Fixpoint lone_surrogate (s : string) : bool :=
  match s with
  | EmptyString => false
  | String c s' => surrogate_at c s' || lone_surrogate s'
  end.

Definition encodeURIComponent (s : string) : Result string :=
  if lone_surrogate s then Err (URIError "URI malformed")
  else Ok (encodeBytes s).

(** [Array.prototype.sort(cmp)]: a stable sort; [a] stays in front of [b]
    unless [cmp(a, b) > 0]. *)
Section ArraySort.
Variable A : Type.
Variable cmp : A -> A -> Z.

Fixpoint sort_insert (x : A) (l : list A) : list A :=
  match l with
  | [] => [x]
  | y :: l' => if (cmp x y <=? 0)%Z then x :: l else y :: sort_insert x l'
  end.

Definition Array_sort (l : list A) : list A := fold_right sort_insert [] l.
End ArraySort.

(** The [URL] objects of the platform, as far as the component reads them. *)
Module URL.
Record t : Type := mk { protocol : string; hostname : string }.

Definition is_alpha (c : ascii) : bool :=
  RegExp.in_class (RegExp.upper ++ RegExp.lower) c.

Definition is_digit (c : ascii) : bool := RegExp.in_class RegExp.digit c.

Definition scheme_char (c : ascii) : bool :=
  is_alpha c || is_digit c
  || RegExp.in_class (RegExp.one "+" ++ RegExp.one "-" ++ RegExp.one ".") c.

Definition to_lower (c : ascii) : ascii :=
  if RegExp.in_class RegExp.upper c
  then ascii_of_N (N_of_ascii c + 32) else c.

Definition ascii_in (cs : string) (c : ascii) : bool :=
  existsb (Ascii.eqb c) (list_ascii_of_string cs).

(** The longest prefix whose characters satisfy [p], and the rest. *)
Fixpoint span (p : ascii -> bool) (s : list ascii)
  : list ascii * list ascii :=
  match s with
  | [] => ([], [])
  | c :: s' =>
      if p c then let (a, b) := span p s' in (c :: a, b) else ([], s)
  end.

(** What follows the last [c] in [s]; [s] itself without a [c]. *)
Fixpoint after_last (c : ascii) (s : list ascii) : list ascii :=
  match s with
  | [] => []
  | x :: s' =>
      if existsb (Ascii.eqb c) s' then after_last c s'
      else if Ascii.eqb c x then s' else s
  end.

(** [s] without its prefix [p], when it has that prefix. *)
Fixpoint strip_prefix (p s : list ascii) : option (list ascii) :=
  match p, s with
  | [], _ => Some s
  | x :: p', y :: s' => if Ascii.eqb x y then strip_prefix p' s' else None
  | _ :: _, [] => None
  end.

Definition is_nil (s : list ascii) : bool :=
  match s with [] => true | _ :: _ => false end.

Definition special : list string := ["http"; "https"; "ws"; "wss"; "ftp"].

Definition is_special (scheme : string) : bool :=
  existsb (String.eqb scheme) special.

(** Characters that may not occur in a host. *)
Definition forbidden_host (c : ascii) : bool :=
  (N_of_ascii c <=? 32)%N || ascii_in "#/:<>?@[\]^|" c.

(** The number a run of digits stands for. *)
Definition port_value (digits : list ascii) : N :=
  fold_left (fun acc d => acc * 10 + (N_of_ascii d - 48))%N digits 0%N.

(** Where the authority ends: at [/], [?] or [#], and for a special scheme
    at a backslash too, which is read as a slash there. *)
Definition ends_authority (scheme : string) (c : ascii) : bool :=
  ascii_in "/?#" c || (is_special scheme && Ascii.eqb c "\").

(** Model of [new URL(input)] for absolute URLs of the two shapes
    [scheme://userinfo@host:port/...] and [scheme:opaque], with an ASCII
    host that is a name.  Not covered: the removal of surrounding spaces
    and inner tabs and newlines, special schemes written without [//],
    [file:] hosts, IPv4 and IPv6 literals, percent-decoding and IDNA. *)
Definition parse (input : string) : Result t :=
  let s := list_ascii_of_string input in
  if negb (is_alpha (hd " "%char s)) then Err (TypeError "Invalid URL") else
  let (sch, rest) := span scheme_char s in
  match strip_prefix [":"%char] rest with
  | None => Err (TypeError "Invalid URL")
  | Some rest' =>
      let scheme := string_of_list_ascii (map to_lower sch) in
      let proto := (scheme ++ ":")%string in
      match strip_prefix ["/"%char; "/"%char] rest' with
      | None => Ok (mk proto EmptyString)
      | Some r =>
          let (auth, _) := span (fun c => negb (ends_authority scheme c)) r in
          let (host, port) :=
            span (fun c => negb (Ascii.eqb c ":")) (after_last "@" auth) in
          if existsb forbidden_host host
             || negb (forallb is_digit (tl port))
             || (65535 <? port_value (tl port))%N
             || (is_special scheme && is_nil host)
          then Err (TypeError "Invalid URL")
          else
            Ok (mk proto
                  (string_of_list_ascii
                     (if is_special scheme then map to_lower host
                      else host)))
      end
  end.
End URL.

(** [extractDomain], over the platform's [URL] constructor. *)
Section ExtractDomain.
Variable URL_new : string -> Result URL.t.

Definition extractDomain (url : string) : Result string :=
  if startsWith url "about:" then Ok url
  else
    (* try { return new URL(url).hostname } catch { return url } *)
    match URL_new url with
    | Ok u => Ok (URL.hostname u)
    | Err _ => Ok url
    end.

(** The text under a tab's title: [tab.url ? extractDomain(tab.url) : ...]
    with the empty string as the alternative. *)
Definition tabUrlText (url : option string) : Result string :=
  match url with
  | Some u => if str_truthy u then extractDomain u else Ok EmptyString
  | None => Ok EmptyString
  end.
End ExtractDomain.

(** Whether [url] starts with a scheme other than [http:] and [https:]. *)
Definition has_other_scheme (url : string) : bool :=
  let s := list_ascii_of_string url in
  let (sch, rest) := URL.span URL.scheme_char s in
  URL.is_alpha (hd " "%char s)
  && match URL.strip_prefix [":"%char] rest with
     | Some _ => true
     | None => false
     end
  && negb (existsb (String.eqb (string_of_list_ascii (map URL.to_lower sch)))
                   ["http"; "https"]).

(** ** The host and the component state *)

(** An entry of what [browser.sessions.getRecentlyClosed] answers: a closed
    tab, or (without [tab]) a closed window. *)
Module Session.
Record t : Type := mk { tab : option TabItem.t }.
End Session.

(** The answers of the host API.  [sessions] is [None] when
    [browser.sessions] is undefined. *)
Module Host.
Record t : Type := mk {
  tabs_query : Result (list TabItem.t);
  sessions : option (Z -> Result (list Session.t));
  history_search : string -> Result (list HistoryItem.t);
  bookmarks_search : string -> Result (list BookmarkItem.t);
  bookmarks_getRecent : Z -> Result (list BookmarkItem.t);
  tabs_update : Z -> Result unit;
  tabs_create : string -> Result unit;
  windows_getCurrent : Result Z;
  windows_update : Z -> Result unit
}.
End Host.

(** What the component does to the outside, in the order it does it. *)
Inductive Effect : Type :=
| TabsQuery
| SessionsGetRecentlyClosed (maxResults : Z)
| HistorySearch (text : string) (maxResults startTime : Z)
| BookmarksSearch (query : string)
| BookmarksGetRecent (n : Z)
| TabsUpdateActive (tabId : Z)
| TabsCreate (url : string)
| WindowsGetCurrent
| WindowsUpdateFocused (windowId : Z)
| WindowClose
| ConsoleWarn (msg : string)
| ConsoleError (msg : string) (error : Error)
| PreventDefault
| StopPropagation.

(** The [useState] slots of [Popup]. *)
Module Popup.
Record t : Type := mk {
  openTabs : list TabItem.t;
  recentlyClosedTabs : list TabItem.t;
  historyItems : list HistoryItem.t;
  bookmarkItems : list BookmarkItem.t;
  filters : Filters.t;
  sessionsError : string;
  searchValue : string
}.

(** The initial values passed to [useState]. *)
Definition initial : t :=
  mk [] [] [] [] Filters.initial EmptyString EmptyString.

Definition setOpenTabs (v : list TabItem.t) (p : t) : t :=
  mk v (recentlyClosedTabs p) (historyItems p) (bookmarkItems p)
     (filters p) (sessionsError p) (searchValue p).
Definition setRecentlyClosedTabs (v : list TabItem.t) (p : t) : t :=
  mk (openTabs p) v (historyItems p) (bookmarkItems p)
     (filters p) (sessionsError p) (searchValue p).
Definition setHistoryItems (v : list HistoryItem.t) (p : t) : t :=
  mk (openTabs p) (recentlyClosedTabs p) v (bookmarkItems p)
     (filters p) (sessionsError p) (searchValue p).
Definition setBookmarkItems (v : list BookmarkItem.t) (p : t) : t :=
  mk (openTabs p) (recentlyClosedTabs p) (historyItems p) v
     (filters p) (sessionsError p) (searchValue p).
Definition setFilters (v : Filters.t) (p : t) : t :=
  mk (openTabs p) (recentlyClosedTabs p) (historyItems p) (bookmarkItems p)
     v (sessionsError p) (searchValue p).
Definition setSessionsError (v : string) (p : t) : t :=
  mk (openTabs p) (recentlyClosedTabs p) (historyItems p) (bookmarkItems p)
     (filters p) v (searchValue p).
Definition setSearchValue (v : string) (p : t) : t :=
  mk (openTabs p) (recentlyClosedTabs p) (historyItems p) (bookmarkItems p)
     (filters p) (sessionsError p) v.
End Popup.

(** The component state together with the trace of effects so far. *)
Record World : Type := mkWorld {
  popup : Popup.t;
  trace : list Effect
}.

(** ** The monad of [async] functions *)

Definition Async (A : Type) : Type := World -> Result A * World.

Definition ret {A : Type} (a : A) : Async A := fun w => (Ok a, w).

Definition bind {A B : Type} (m : Async A) (k : A -> Async B) : Async B :=
  fun w =>
    match m w with
    | (Ok a, w') => k a w'
    | (Err e, w') => (Err e, w')
    end.

Declare Scope async_scope.
Delimit Scope async_scope with async.
Notation "x <- m ;; k" := (bind m (fun x => k))
  (at level 61, m at next level, right associativity) : async_scope.
Notation "m ;; k" := (bind m (fun _ => k))
  (at level 61, right associativity) : async_scope.

(** [try { body } catch (error) { handler }] *)
Definition try_catch {A : Type} (body : Async A) (handler : Error -> Async A)
  : Async A :=
  fun w =>
    match body w with
    | (Ok a, w') => (Ok a, w')
    | (Err e, w') => handler e w'
    end.

(** A call whose promise nobody awaits: it runs, and a rejection stays with
    the dropped promise.  The call is run to its end on the spot; in the
    browser what follows its first [await] runs later, so the effects of two
    such calls may come in another order than here, with the same final
    state. *)
Definition detached {A : Type} (m : Async A) : Async unit :=
  fun w => (Ok tt, snd (m w)).

Definition emit (e : Effect) : Async unit :=
  fun w => (Ok tt, mkWorld (popup w) (trace w ++ [e])).

(** [await] of a host call: the call is made, then it resolves or rejects. *)
Definition call {A : Type} (e : Effect) (answer : Result A) : Async A :=
  fun w => (answer, mkWorld (popup w) (trace w ++ [e])).

(** An expression that may throw, inside an [async] function: a thrown
    value rejects the promise. *)
Definition eval {A : Type} (value : Result A) : Async A :=
  fun w => (value, w).

Definition get : Async Popup.t := fun w => (Ok (popup w), w).

Definition set (f : Popup.t -> Popup.t) : Async unit :=
  fun w => (Ok tt, mkWorld (f (popup w)) (trace w)).

(** ** The component *)

(** [(a, b) => (b.lastAccessed || 0) - (a.lastAccessed || 0)] *)
Definition byLastAccessed (a b : TabItem.t) : Z :=
  or0 (TabItem.lastAccessed b) - or0 (TabItem.lastAccessed a).

(** [sessions.filter((session) => session.tab).map((session) => session.tab)] *)
Definition sessionTabs (sessions : list Session.t) : list TabItem.t :=
  flat_map (fun session =>
              match Session.tab session with
              | Some t => [t]
              | None => []
              end) sessions.

(** [items.filter((item) => item.url)] *)
Definition withUrl (items : list BookmarkItem.t) : list BookmarkItem.t :=
  filter (fun item => truthy_str (BookmarkItem.url item)) items.

(** [tab.audible || tab.mutedInfo?.muted] *)
Definition isMedia (tab : TabItem.t) : bool :=
  truthy_flag (TabItem.audible tab)
  || truthy_flag (option_map MutedInfo.muted (TabItem.mutedInfo tab)).

Definition mediaTabs (openTabs : list TabItem.t) : list TabItem.t :=
  filter isMedia openTabs.

Definition activeTabs (openTabs : list TabItem.t) : list TabItem.t :=
  filter (fun tab =>
            negb (truthy_flag (TabItem.audible tab))
            && negb (truthy_flag
                       (option_map MutedInfo.muted (TabItem.mutedInfo tab)))
            && negb (truthy_flag (TabItem.active tab)))
         openTabs.

Module KeyboardEvent.
Record t : Type := mk {
  key : string;
  ctrlKey : bool;
  metaKey : bool;
  shiftKey : bool;
  altKey : bool
}.
End KeyboardEvent.

Section Component.
Variable host : Host.t.
Local Open Scope async_scope.

Definition fetchOpenTabs : Async unit :=
  tabs <- call TabsQuery (Host.tabs_query host) ;;
  let sortedTabs := Array_sort byLastAccessed tabs in
  set (Popup.setOpenTabs sortedTabs).

Definition fetchRecentlyClosedTabs : Async unit :=
  try_catch
    (match Host.sessions host with
     | None =>
         let error :=
           "Cannot access recently closed tabs. Please ensure necessary permissions are granted." in
         emit (ConsoleWarn "Sessions API is not available") ;;
         set (Popup.setSessionsError error)
     | Some getRecentlyClosed =>
         sessions <- call (SessionsGetRecentlyClosed 25)
                          (getRecentlyClosed 25) ;;
         let closedTabs := Array_sort byLastAccessed (sessionTabs sessions) in
         set (Popup.setRecentlyClosedTabs closedTabs) ;;
         set (Popup.setSessionsError EmptyString)
     end)
    (fun error =>
       let errorMessage := "Error fetching recently closed tabs" in
       emit (ConsoleError errorMessage error) ;;
       set (Popup.setSessionsError errorMessage) ;;
       set (Popup.setRecentlyClosedTabs [])).

Definition fetchHistoryItems (query : string) : Async unit :=
  try_catch
    (items <- call (HistorySearch query 20 0)
                   (Host.history_search host query) ;;
     set (Popup.setHistoryItems items))
    (fun error =>
       emit (ConsoleError "Error fetching history:" error) ;;
       set (Popup.setHistoryItems [])).

Definition fetchBookmarkItems : Async unit :=
  try_catch
    (p <- get ;;
     let searchValue := Popup.searchValue p in
     if str_truthy searchValue then
       items <- call (BookmarksSearch searchValue)
                     (Host.bookmarks_search host searchValue) ;;
       set (Popup.setBookmarkItems (withUrl items))
     else
       items <- call (BookmarksGetRecent 10)
                     (Host.bookmarks_getRecent host 10) ;;
       set (Popup.setBookmarkItems (withUrl items)))
    (fun error =>
       emit (ConsoleError "Error fetching bookmarks:" error) ;;
       set (Popup.setBookmarkItems [])).

Definition switchToTab (tabId : Z) : Async unit :=
  call (TabsUpdateActive tabId) (Host.tabs_update host tabId) ;;
  win <- call WindowsGetCurrent (Host.windows_getCurrent host) ;;
  call (WindowsUpdateFocused win) (Host.windows_update host win) ;;
  emit WindowClose.

Definition reopenTab (url : string) : Async unit :=
  call (TabsCreate url) (Host.tabs_create host url) ;;
  emit WindowClose.

Definition handleSearch (searchEngine : string) : Async unit :=
  p <- get ;;
  let searchValue := Popup.searchValue p in
  if str_truthy searchValue then
    searchUrl <-
      (if String.eqb searchEngine "google" then
         encoded <- eval (encodeURIComponent searchValue) ;;
         ret ("https://www.google.com/search?q=" ++ encoded)
       else if String.eqb searchEngine "bing" then
         encoded <- eval (encodeURIComponent searchValue) ;;
         ret ("https://www.bing.com/search?q=" ++ encoded)
       else if String.eqb searchEngine "duckduckgo" then
         encoded <- eval (encodeURIComponent searchValue) ;;
         ret ("https://duckduckgo.com/?q=" ++ encoded)
       else
         encoded <- eval (encodeURIComponent searchValue) ;;
         ret ("https://www.google.com/search?q=" ++ encoded)) ;;
    call (TabsCreate searchUrl) (Host.tabs_create host searchUrl) ;;
    emit WindowClose
  else ret tt.

Definition handleUrlNavigation (url : string) : Async unit :=
  (* Add https if no protocol specified *)
  let urlWithProtocol :=
    if has_http_scheme url then url else "https://" ++ url in
  call (TabsCreate urlWithProtocol) (Host.tabs_create host urlWithProtocol) ;;
  emit WindowClose.

(** [handleFilterClick] inside the component: it reads [filters] and hands
    the new value to [setFilters]. *)
Definition clickFilter (filter : FilterName) : Async unit :=
  p <- get ;;
  set (Popup.setFilters (handleFilterClick (Popup.filters p) filter)).

Definition handleKeyDown (e : KeyboardEvent.t) : Async unit :=
  p <- get ;;
  let searchValue := Popup.searchValue p in
  if String.eqb (KeyboardEvent.key e) "Enter"
     && (KeyboardEvent.metaKey e || KeyboardEvent.ctrlKey e)
  then
    emit PreventDefault ;;
    if isUrl searchValue && KeyboardEvent.shiftKey e
    then detached (handleUrlNavigation searchValue)
    else detached (handleSearch "google")
  else if KeyboardEvent.ctrlKey e || KeyboardEvent.metaKey e then
    (* Switch filter *)
    if String.eqb (KeyboardEvent.key e) "1" then
      emit PreventDefault ;; emit StopPropagation ;; clickFilter FAll
    else if String.eqb (KeyboardEvent.key e) "2" then
      emit PreventDefault ;; emit StopPropagation ;; clickFilter FTab
    else if String.eqb (KeyboardEvent.key e) "3" then
      emit PreventDefault ;; emit StopPropagation ;; clickFilter FHistory
    else if String.eqb (KeyboardEvent.key e) "4" then
      emit PreventDefault ;; emit StopPropagation ;; clickFilter FBookmark
    else ret tt
  else ret tt.

(** The [onSelect] of an item of "Media Tabs" and "Opened Tabs":
    [tab.id && switchToTab(tab.id)]. *)
Definition onSelectTab (tab : TabItem.t) : Async unit :=
  match TabItem.id tab with
  | Some tabId =>
      if truthy_num (Some tabId) then detached (switchToTab tabId)
      else ret tt
  | None => ret tt
  end.

(** The [onSelect] of an item of "Recently Closed Tabs", "Bookmarks" and
    "History": [item.url && reopenTab(item.url)]. *)
Definition onSelectUrl (url : option string) : Async unit :=
  match url with
  | Some u => if str_truthy u then detached (reopenTab u) else ret tt
  | None => ret tt
  end.

Definition onSelectClosedTab (tab : TabItem.t) : Async unit :=
  onSelectUrl (TabItem.url tab).

Definition onSelectBookmark (item : BookmarkItem.t) : Async unit :=
  onSelectUrl (BookmarkItem.url item).

Definition onSelectHistory (item : HistoryItem.t) : Async unit :=
  onSelectUrl (HistoryItem.url item).
End Component.

(** The items of the quick-actions group, rendered for a non-empty
    [searchValue]: "Search google" always, "Navigate to" under
    [isUrl(searchValue)]. *)
Inductive QuickAction : Type :=
| SearchGoogle (query : string)
| NavigateTo (query : string).

Definition quickActions (searchValue : string) : list QuickAction :=
  if str_truthy searchValue then
    SearchGoogle searchValue
    :: (if isUrl searchValue then [NavigateTo searchValue] else [])
  else [].

(** The [onSelect] of a quick action. *)
Definition onSelectQuickAction (host : Host.t) (a : QuickAction)
  : Async unit :=
  match a with
  | SearchGoogle _ => detached (handleSearch host "google")
  | NavigateTo query => detached (handleUrlNavigation host query)
  end.


(** ** Vocabulary of the statements *)

(** The effects that follow [browser.tabs.create] in [reopenTab],
    [handleSearch] and [handleUrlNavigation]: the popup closes once the host
    has resolved the call. *)
Definition afterCreate (answer : Result unit) : list Effect :=
  match answer with
  | Ok _ => [WindowClose]
  | Err _ => []
  end.

(** The filter a digit key stands for in the [switch] of [handleKeyDown]. *)
Definition filterOfKey (key : string) : option FilterName :=
  if String.eqb key "1" then Some FAll
  else if String.eqb key "2" then Some FTab
  else if String.eqb key "3" then Some FHistory
  else if String.eqb key "4" then Some FBookmark
  else None.

(** Somewhere in [s] a dot is followed by two characters of [[a-z.]]: the
    least that can pass for a top-level domain. *)
Fixpoint tld_at (s : list ascii) : bool :=
  match s with
  | [] => false
  | c :: s' =>
      (Ascii.eqb c "."
       && match s' with
          | t1 :: t2 :: _ =>
              RegExp.in_class tld_class t1 && RegExp.in_class tld_class t2
          | _ => false
          end)
      || tld_at s'
  end.

Definition has_tld (q : string) : bool := tld_at (list_ascii_of_string q).

(** A space occurs in [s] with no dot in front of it. *)
Fixpoint space_first (s : list ascii) : bool :=
  match s with
  | [] => false
  | c :: s' =>
      if Ascii.eqb c " " then true
      else if Ascii.eqb c "." then false
      else space_first s'
  end.

Definition space_before_dot (q : string) : bool :=
  space_first (list_ascii_of_string q).

Definition contains_space (q : string) : bool :=
  existsb (Ascii.eqb " ") (list_ascii_of_string q).

(** A host on which every call resolves and there is nothing to list. *)
Definition quietHost : Host.t :=
  Host.mk (Ok []) (Some (fun _ => Ok [])) (fun _ => Ok []) (fun _ => Ok [])
          (fun _ => Ok []) (fun _ => Ok tt) (fun _ => Ok tt) (Ok 1)
          (fun _ => Ok tt).

(** A host like [host] on which [browser.tabs.query] rejects with [e]. *)
Definition withFailingQuery (e : Error) (host : Host.t) : Host.t :=
  Host.mk (Err e) (Host.sessions host) (Host.history_search host)
          (Host.bookmarks_search host) (Host.bookmarks_getRecent host)
          (Host.tabs_update host) (Host.tabs_create host)
          (Host.windows_getCurrent host) (Host.windows_update host).

(** The world when the popup opens. *)
Definition initialWorld : World := mkWorld Popup.initial [].

(** ** The rest of the component *)

(** [handleTabChange], the listener of the tab events: two fetches, neither
    awaited. *)
Definition handleTabChange (host : Host.t) : Async unit :=
  (detached (fetchOpenTabs host) ;;
   detached (fetchRecentlyClosedTabs host))%async.

(** What [Command.List] holds besides [Command.Empty], in order. *)
Inductive Group : Type :=
| QuickActionsGroup
| MediaTabsGroup
| OpenedTabsGroup
| RecentlyClosedTabsGroup
| BookmarksGroup
| HistoryGroup
| SessionsErrorItem.

(** [xs.length > 0] *)
Definition nonEmpty {A : Type} (xs : list A) : bool :=
  match xs with [] => false | _ :: _ => true end.

(** The conditions under which the groups are rendered. *)
Definition renderedGroups (p : Popup.t) : list Group :=
  let filters := Popup.filters p in
  ((if str_truthy (Popup.searchValue p) then [QuickActionsGroup] else [])
   ++ (if (Filters.all filters || Filters.tab filters)
          && nonEmpty (mediaTabs (Popup.openTabs p))
       then [MediaTabsGroup] else [])
   ++ (if Filters.all filters || Filters.tab filters
       then [OpenedTabsGroup] else [])
   ++ (if (Filters.all filters || Filters.tab filters)
          && negb (str_truthy (Popup.sessionsError p))
       then [RecentlyClosedTabsGroup] else [])
   ++ (if (Filters.all filters || Filters.bookmark filters)
          && nonEmpty (Popup.bookmarkItems p)
       then [BookmarksGroup] else [])
   ++ (if (Filters.all filters || Filters.history filters)
          && nonEmpty (Popup.historyItems p)
       then [HistoryGroup] else [])
   ++ (if str_truthy (Popup.sessionsError p)
       then [SessionsErrorItem] else []))%list.

(** The [heading] of a group. *)
Definition groupHeading (searchValue : string) (g : Group) : string :=
  match g with
  | QuickActionsGroup =>
      if str_truthy searchValue then EmptyString else "Quick Actions"
  | MediaTabsGroup => "Media Tabs"
  | OpenedTabsGroup =>
      if str_truthy searchValue then EmptyString else "Opened Tabs"
  | RecentlyClosedTabsGroup =>
      if str_truthy searchValue then EmptyString else "Recently Closed Tabs"
  | BookmarksGroup => "Bookmarks"
  | HistoryGroup => "History"
  | SessionsErrorItem => EmptyString
  end.

(** [SubCommand]: its [open] state, the [keydown] listener on the document
    and the two items of the menu. *)
Module SubCommand.

(** [listener]: the effects on the event and the new value of [open]. *)
Definition listener (e : KeyboardEvent.t) (open : bool)
  : list Effect * bool :=
  if String.eqb (KeyboardEvent.key e) "o"
     && (KeyboardEvent.metaKey e || KeyboardEvent.ctrlKey e)
  then ([PreventDefault; StopPropagation], negb open)
  else ([], open).

(** The effect on [open]: [el] is the [style.overflow] of the list, [None]
    when [listRef.current] is null. *)
Definition overflowEffect (el : option string) (open : bool)
  : option string :=
  match el with
  | None => None
  | Some _ => Some (if open then "hidden" else EmptyString)
  end.

(** [disabled] of "Search web" and of "Open URL". *)
Definition searchWebDisabled (selectedValue : string) : bool :=
  negb (str_truthy selectedValue).

Definition openUrlDisabled (selectedValue : string) : bool :=
  negb (isUrl selectedValue).

(** [onSelect] of the two items. *)
Definition onSelectSearchWeb (host : Host.t) : Async unit :=
  detached (handleSearch host "google").

Definition onSelectOpenUrl (host : Host.t) (selectedValue : string)
  : Async unit :=
  detached (handleUrlNavigation host selectedValue).

End SubCommand.

(** ** Controls on the items

    The buttons on a tab item and the input's change handler reach further
    into the host and the page than the functions above: their effects are
    the ones above and three more. *)
Inductive UiEffect : Type :=
| HostEffect (e : Effect)
| TabsUpdateMuted (tabId : Z) (muted : bool)
| TabsRemove (tabId : Z)
| SetScrollTop (value : Z).

Record UiWorld : Type := mkUi {
  ui_popup : Popup.t;
  ui_trace : list UiEffect
}.

Definition Ui (A : Type) : Type := UiWorld -> Result A * UiWorld.

Definition ui_ret {A : Type} (a : A) : Ui A := fun u => (Ok a, u).

Definition ui_bind {A B : Type} (m : Ui A) (k : A -> Ui B) : Ui B :=
  fun u =>
    match m u with
    | (Ok a, u') => k a u'
    | (Err e, u') => (Err e, u')
    end.

Declare Scope ui_scope.
Delimit Scope ui_scope with ui.
Notation "x <- m ;; k" := (ui_bind m (fun x => k))
  (at level 61, m at next level, right associativity) : ui_scope.
Notation "m ;; k" := (ui_bind m (fun _ => k))
  (at level 61, right associativity) : ui_scope.

Definition ui_detached {A : Type} (m : Ui A) : Ui unit :=
  fun u => (Ok tt, snd (m u)).

Definition ui_emit (e : UiEffect) : Ui unit :=
  fun u => (Ok tt, mkUi (ui_popup u) (ui_trace u ++ [e])).

Definition ui_call {A : Type} (e : UiEffect) (answer : Result A) : Ui A :=
  fun u => (answer, mkUi (ui_popup u) (ui_trace u ++ [e])).



(** A function of the component run here: it sees the state, and what it
    does is added to the trace. *)
Definition lift {A : Type} (m : Async A) : Ui A :=
  fun u =>
    let (r, w) := m (mkWorld (ui_popup u) []) in
    (r, mkUi (popup w) (ui_trace u ++ map HostEffect (trace w))).

Section Controls.
Variable host : Host.t.
Local Open Scope ui_scope.

(** [toggleMute].  The host answers [browser.tabs.update] per tab, as in
    [Host.tabs_update]. *)
Definition toggleMute (tabId : Z) (muted : bool) : Ui unit :=
  ui_call (TabsUpdateMuted tabId (negb muted)) (Host.tabs_update host tabId) ;;
  ui_detached (lift (fetchOpenTabs host)).

(** The [onClick] of the mute button of a media tab:
    [tab.id && toggleMute(tab.id, tab.mutedInfo?.muted || false)] after
    [e.stopPropagation()]. *)
Definition onClickMute (tab : TabItem.t) : Ui unit :=
  ui_emit (HostEffect StopPropagation) ;;
  match TabItem.id tab with
  | Some tabId =>
      if truthy_num (Some tabId)
      then ui_detached
             (toggleMute tabId
                (truthy_flag
                   (option_map MutedInfo.muted (TabItem.mutedInfo tab))))
      else ui_ret tt
  | None => ui_ret tt
  end.

(** The [onClick] of the close button of a tab:
    [tab.id && browser.tabs.remove(tab.id)] after [e.stopPropagation()]. *)
Definition onClickClose (tab : TabItem.t) : Ui unit :=
  ui_emit (HostEffect StopPropagation) ;;
  match TabItem.id tab with
  | Some tabId =>
      if truthy_num (Some tabId) then ui_emit (TabsRemove tabId)
      else ui_ret tt
  | None => ui_ret tt
  end.



End Controls.

(** ** More vocabulary *)

(** The character classes that occur in an expression. *)
Fixpoint alphabet (r : RegExp.t) : list RegExp.range :=
  match r with
  | RegExp.Fail => []
  | RegExp.Eps => []
  | RegExp.Class cs => cs
  | RegExp.Cat a b => (alphabet a ++ alphabet b)%list
  | RegExp.Alt a b => (alphabet a ++ alphabet b)%list
  | RegExp.Star a => alphabet a
  end.

(** The characters a URL-shaped query is made of: letters, digits and
    [_ / . - :] and the space. *)
Definition url_chars : list RegExp.range :=
  (RegExp.word ++ RegExp.one "/" ++ RegExp.one " " ++ RegExp.one "."
   ++ RegExp.one "-" ++ RegExp.one ":")%list.

(** The state after the clicks [ks], in order. *)
Definition clicks (f : Filters.t) (ks : list FilterName) : Filters.t :=
  fold_left handleFilterClick ks f.

(** The open tabs that neither group shows: the active tab, unless it is a
    media tab. *)
Definition hiddenTabs (openTabs : list TabItem.t) : list TabItem.t :=
  filter (fun tab => negb (isMedia tab) && truthy_flag (TabItem.active tab))
         openTabs.

(** The address [handleUrlNavigation] opens. *)
Definition urlWithProtocol (url : string) : string :=
  if has_http_scheme url then url else ("https://" ++ url)%string.

(** A tab as the host lists it, for the examples. *)
Definition tabWith (tabId : Z) (stamp : option Z) (active audible : bool)
  : TabItem.t :=
  TabItem.mk (Some tabId) "tab" (Some "https://example.com/") None stamp
             (Some active) (Some audible) None.

(** A host like [quietHost] whose window holds [tabs]. *)
Definition hostWithTabs (tabs : list TabItem.t) : Host.t :=
  Host.mk (Ok tabs) (Host.sessions quietHost) (Host.history_search quietHost)
          (Host.bookmarks_search quietHost)
          (Host.bookmarks_getRecent quietHost) (Host.tabs_update quietHost)
          (Host.tabs_create quietHost) (Host.windows_getCurrent quietHost)
          (Host.windows_update quietHost).


Definition hostWithoutSessions : Host.t :=
  Host.mk (Host.tabs_query quietHost) None
          (Host.history_search quietHost) (Host.bookmarks_search quietHost)
          (Host.bookmarks_getRecent quietHost) (Host.tabs_update quietHost)
          (Host.tabs_create quietHost) (Host.windows_getCurrent quietHost)
          (Host.windows_update quietHost).

(** The filter a group belongs to; the quick actions and the error item
    belong to none. *)
Definition groupSource (g : Group) : option FilterName :=
  match g with
  | QuickActionsGroup => None
  | MediaTabsGroup => Some FTab
  | OpenedTabsGroup => Some FTab
  | RecentlyClosedTabsGroup => Some FTab
  | BookmarksGroup => Some FBookmark
  | HistoryGroup => Some FHistory
  | SessionsErrorItem => None
  end.

Definition FilterName_eqb (a b : FilterName) : bool :=
  match a, b with
  | FAll, FAll => true
  | FTab, FTab => true
  | FHistory, FHistory => true
  | FBookmark, FBookmark => true
  | _, _ => false
  end.

(** The groups that the filter [k] admits. *)
Definition admittedBy (k : FilterName) (g : Group) : bool :=
  match groupSource g with
  | None => true
  | Some source => FilterName_eqb source k
  end.

(** [tab.mutedInfo?.muted || false] *)
Definition currentlyMuted (tab : TabItem.t) : bool :=
  truthy_flag (option_map MutedInfo.muted (TabItem.mutedInfo tab)).



(** The address a search engine takes the encoded query after; the
    [default] of the [switch] is Google. *)
Definition searchPrefix (searchEngine : string) : string :=
  if String.eqb searchEngine "bing" then "https://www.bing.com/search?q="
  else if String.eqb searchEngine "duckduckgo" then "https://duckduckgo.com/?q="
  else "https://www.google.com/search?q=".

(** A query that is one lone surrogate (U+D800). *)
Definition loneSurrogate : string :=
  String "237" (String "160" (String "128" EmptyString)).

(** ** Filter state *)

Lemma initial_filters_inv : filters_inv Filters.initial.
Proof. unfold filters_inv; simpl; tauto. Qed.

Lemma handleFilterClick_inv_any (f : Filters.t) (k : FilterName) :
  filters_inv (handleFilterClick f k).
Proof.
  destruct f as [a t h b], k; unfold filters_inv; simpl;
    try tauto; destruct t, h, b; simpl; intuition congruence.
Qed.

Lemma handleFilterClick_all (f : Filters.t) :
  handleFilterClick f FAll = Filters.initial.
Proof. reflexivity. Qed.

(** C1.  From every state that satisfies the invariant, [handleFilterClick]
    leads to a state that satisfies it; switching a specific flag on clears
    [all] (and sets that flag); switching off the only active specific flag
    sets [all] again; and from the all-active state two clicks on the same
    specific flag lead back to the all-active state. *)
Theorem handleFilterClick_preserves_invariant
    (f : Filters.t) (k : FilterName) (Hinv : filters_inv f) :
  filters_inv (handleFilterClick f k)
  /\ (specific k -> getFilter f k = false ->
      Filters.all (handleFilterClick f k) = false
      /\ getFilter (handleFilterClick f k) k = true)
  /\ (specific k -> only_active f k ->
      Filters.all (handleFilterClick f k) = true
      /\ getFilter (handleFilterClick f k) k = false)
  /\ (specific k ->
      Filters.all (handleFilterClick Filters.initial k) = false
      /\ handleFilterClick (handleFilterClick Filters.initial k) k
         = Filters.initial).
Proof.
  split; [apply handleFilterClick_inv_any|].
  split; [|split].
  - intros Hk Hoff. destruct f as [a t h b], k; simpl in *;
      try (exfalso; apply Hk; reflexivity); subst; simpl;
      repeat match goal with
             | |- context [negb ?x] => is_var x; destruct x; simpl
             end; auto.
  - intros Hk [Hon Hothers]. destruct k;
      try (exfalso; apply Hk; reflexivity).
    + assert (H1 := Hothers FHistory). assert (H2 := Hothers FBookmark).
      destruct f as [a t h b]; simpl in *. subst.
      rewrite H1, H2 by (unfold specific; congruence). auto.
    + assert (H1 := Hothers FTab). assert (H2 := Hothers FBookmark).
      destruct f as [a t h b]; simpl in *. subst.
      rewrite H1, H2 by (unfold specific; congruence). auto.
    + assert (H1 := Hothers FTab). assert (H2 := Hothers FHistory).
      destruct f as [a t h b]; simpl in *. subst.
      rewrite H1, H2 by (unfold specific; congruence). auto.
  - intros Hk. destruct k; try (exfalso; apply Hk; reflexivity);
      split; reflexivity.
Qed.

Lemma handleFilterClick_preserves_invariant_witness :
  filters_inv (Filters.mk false true false false)
  /\ filters_inv (handleFilterClick (Filters.mk false true false false) FTab).
Proof.
  assert (H : filters_inv (Filters.mk false true false false)).
  { unfold filters_inv; simpl; intuition congruence. }
  split; [exact H|].
  exact (proj1 (handleFilterClick_preserves_invariant FTab H)).
Defined.



(** ** Tab groups *)

Lemma activeTabs_filter (tab : TabItem.t) :
  (negb (truthy_flag (TabItem.audible tab))
   && negb (truthy_flag (option_map MutedInfo.muted (TabItem.mutedInfo tab)))
   && negb (truthy_flag (TabItem.active tab)))%bool
  = (negb (isMedia tab) && negb (truthy_flag (TabItem.active tab)))%bool.
Proof. unfold isMedia. now rewrite negb_orb. Qed.

Lemma In_mediaTabs (openTabs : list TabItem.t) (tab : TabItem.t) :
  In tab (mediaTabs openTabs) <-> In tab openTabs /\ isMedia tab = true.
Proof. unfold mediaTabs. apply filter_In. Qed.

(** C2.  [activeTabs] keeps, in order, exactly the fetched tabs that are not
    media tabs and not the active tab, where the media tabs are the fetched
    tabs that are audible or muted; so no tab of [activeTabs] is active and
    none is in [mediaTabs]. *)
Theorem activeTabs_excludes_active_and_media (openTabs : list TabItem.t) :
  activeTabs openTabs
  = filter (fun tab => negb (isMedia tab)
                       && negb (truthy_flag (TabItem.active tab)))
           openTabs
  /\ (forall tab,
        In tab (mediaTabs openTabs) <->
        In tab openTabs
        /\ (TabItem.audible tab = Some true
            \/ option_map MutedInfo.muted (TabItem.mutedInfo tab) = Some true))
  /\ (forall tab,
        In tab (activeTabs openTabs) <->
        In tab openTabs
        /\ TabItem.active tab <> Some true
        /\ ~ In tab (mediaTabs openTabs))
  /\ (forall tab,
        In tab (activeTabs openTabs) ->
        TabItem.active tab <> Some true /\ ~ In tab (mediaTabs openTabs)).
Proof.
  assert (Hflag : forall o, truthy_flag o = true <-> o = Some true).
  { intros [[|]|]; simpl; split; congruence. }
  assert (Hmedia : forall tab,
             isMedia tab = true <->
             TabItem.audible tab = Some true
             \/ option_map MutedInfo.muted (TabItem.mutedInfo tab) = Some true).
  { intros tab. unfold isMedia. rewrite orb_true_iff, !Hflag. tauto. }
  assert (Hactive : forall tab,
             In tab (activeTabs openTabs) <->
             In tab openTabs
             /\ TabItem.active tab <> Some true
             /\ ~ In tab (mediaTabs openTabs)).
  { intros tab. unfold activeTabs. rewrite filter_In, activeTabs_filter.
    rewrite In_mediaTabs, andb_true_iff, !negb_true_iff.
    rewrite <- Hflag.
    destruct (isMedia tab), (truthy_flag (TabItem.active tab));
      intuition congruence. }
  split; [|split; [|split]].
  - unfold activeTabs. apply filter_ext. intros tab. apply activeTabs_filter.
  - intros tab. rewrite In_mediaTabs, Hmedia. tauto.
  - exact Hactive.
  - intros tab H. apply Hactive in H. tauto.
Qed.

(** ** Sorting *)

Section SortFacts.
Variable A : Type.
Variable key : A -> Z.

(** The comparator [(a, b) => key(b) - key(a)]. *)
Let cmp (a b : A) : Z := key b - key a.

(** Descending by [key]. *)
Let desc (a b : A) : Prop := key b <= key a.

Lemma sort_insert_perm (x : A) (l : list A) :
  Permutation (x :: l) (sort_insert cmp x l).
Proof.
  induction l as [|y l IH]; simpl; [reflexivity|].
  destruct (cmp x y <=? 0); [reflexivity|].
  rewrite perm_swap. now apply perm_skip.
Qed.


Lemma sort_insert_sorted (x : A) (l : list A) :
  StronglySorted desc l -> StronglySorted desc (sort_insert cmp x l).
Proof.
  induction 1 as [|y l Hs IH Hy]; simpl.
  - repeat constructor.
  - destruct (Z.leb_spec (cmp x y) 0) as [Hle|Hgt]; unfold cmp in *.
    + constructor; [now constructor|].
      constructor; [unfold desc; lia|].
      eapply Forall_impl; [|exact Hy]. unfold desc. intros; lia.
    + constructor; [exact IH|].
      eapply Permutation_Forall; [apply sort_insert_perm|].
      constructor; [unfold desc; lia|exact Hy].
Qed.

Lemma Array_sort_sorted (l : list A) :
  StronglySorted desc (Array_sort cmp l).
Proof.
  induction l as [|x l IH]; simpl; [constructor|].
  now apply sort_insert_sorted.
Qed.


End SortFacts.

(** ** Data fetchers *)

Lemma fetchOpenTabs_resolved
    (host : Host.t) (tabs : list TabItem.t) (w : World) :
  Host.tabs_query host = Ok tabs ->
  fetchOpenTabs host w
  = (Ok tt,
     mkWorld (Popup.setOpenTabs (Array_sort byLastAccessed tabs) (popup w))
             (trace w ++ [TabsQuery])).
Proof.
  intros H. unfold fetchOpenTabs, bind, call, set. rewrite H. reflexivity.
Qed.



(** The three fetchers with a [try]/[catch] turn a rejected host call into
    an empty slot. *)
Lemma fetchRecentlyClosedTabs_catches
    (host : Host.t) (getRecentlyClosed : Z -> Result (list Session.t))
    (e : Error) (w : World) :
  Host.sessions host = Some getRecentlyClosed ->
  getRecentlyClosed 25 = Err e ->
  fetchRecentlyClosedTabs host w
  = (Ok tt,
     mkWorld
       (Popup.setRecentlyClosedTabs []
          (Popup.setSessionsError "Error fetching recently closed tabs"
             (popup w)))
       (trace w ++ [SessionsGetRecentlyClosed 25;
                    ConsoleError "Error fetching recently closed tabs" e])).
Proof.
  intros Hs He. unfold fetchRecentlyClosedTabs, try_catch, bind, call, emit, set.
  rewrite Hs. simpl. rewrite He. simpl. now rewrite <- app_assoc.
Qed.

Lemma fetchHistoryItems_catches
    (host : Host.t) (query : string) (e : Error) (w : World) :
  Host.history_search host query = Err e ->
  fetchHistoryItems host query w
  = (Ok tt,
     mkWorld (Popup.setHistoryItems [] (popup w))
       (trace w ++ [HistorySearch query 20 0;
                    ConsoleError "Error fetching history:" e])).
Proof.
  intros He. unfold fetchHistoryItems, try_catch, bind, call, emit, set.
  rewrite He. simpl. now rewrite <- app_assoc.
Qed.

Lemma fetchBookmarkItems_catches_search
    (host : Host.t) (e : Error) (w : World) :
  str_truthy (Popup.searchValue (popup w)) = true ->
  Host.bookmarks_search host (Popup.searchValue (popup w)) = Err e ->
  fetchBookmarkItems host w
  = (Ok tt,
     mkWorld (Popup.setBookmarkItems [] (popup w))
       (trace w ++ [BookmarksSearch (Popup.searchValue (popup w));
                    ConsoleError "Error fetching bookmarks:" e])).
Proof.
  intros Hq He.
  unfold fetchBookmarkItems, try_catch, bind, call, emit, set, get.
  rewrite Hq, He. simpl. now rewrite <- app_assoc.
Qed.

Lemma fetchBookmarkItems_catches_recent
    (host : Host.t) (e : Error) (w : World) :
  str_truthy (Popup.searchValue (popup w)) = false ->
  Host.bookmarks_getRecent host 10 = Err e ->
  fetchBookmarkItems host w
  = (Ok tt,
     mkWorld (Popup.setBookmarkItems [] (popup w))
       (trace w ++ [BookmarksGetRecent 10;
                    ConsoleError "Error fetching bookmarks:" e])).
Proof.
  intros Hq He.
  unfold fetchBookmarkItems, try_catch, bind, call, emit, set, get.
  rewrite Hq, He. simpl. now rewrite <- app_assoc.
Qed.

(** Whatever the host answers, these three never reject. *)
Lemma fetchRecentlyClosedTabs_resolves (host : Host.t) (w : World) :
  fst (fetchRecentlyClosedTabs host w) = Ok tt.
Proof.
  unfold fetchRecentlyClosedTabs, try_catch, bind, call, emit, set.
  destruct (Host.sessions host) as [g|]; simpl; [|reflexivity].
  destruct (g 25); reflexivity.
Qed.

Lemma fetchHistoryItems_resolves (host : Host.t) (query : string) (w : World) :
  fst (fetchHistoryItems host query w) = Ok tt.
Proof.
  unfold fetchHistoryItems, try_catch, bind, call, emit, set.
  destruct (Host.history_search host query); reflexivity.
Qed.

Lemma fetchBookmarkItems_resolves (host : Host.t) (w : World) :
  fst (fetchBookmarkItems host w) = Ok tt.
Proof.
  unfold fetchBookmarkItems, try_catch, bind, call, emit, set, get.
  destruct (str_truthy (Popup.searchValue (popup w))); simpl.
  - destruct (Host.bookmarks_search host _); reflexivity.
  - destruct (Host.bookmarks_getRecent host 10); reflexivity.
Qed.

(** C3.  What [fetchOpenTabs] does when [browser.tabs.query] rejects with
    [e]: it has no [try]/[catch], so it rejects with [e] itself and leaves
    the [openTabs] slot (the whole component state) as it was; nothing is
    logged and nothing is reset. *)
Theorem fetchOpenTabs_propagates_host_error
    (host : Host.t) (e : Error) (w : World) :
  fetchOpenTabs (withFailingQuery e host) w
  = (Err e, mkWorld (popup w) (trace w ++ [TabsQuery])).
Proof. reflexivity. Qed.

(** ** Actions *)

Lemma str_truthy_nonempty (s : string) :
  s <> EmptyString -> str_truthy s = true.
Proof.
  intros H. unfold str_truthy. apply negb_true_iff.
  destruct (String.eqb_spec s EmptyString); [contradiction | reflexivity].
Qed.

(** [handleSearch] on a non-empty query that can be encoded, and on one that
    cannot. *)
Lemma handleSearch_encoded
    (host : Host.t) (searchEngine encoded : string) (w : World) :
  Popup.searchValue (popup w) <> EmptyString ->
  encodeURIComponent (Popup.searchValue (popup w)) = Ok encoded ->
  snd (handleSearch host searchEngine w)
  = mkWorld (popup w)
      (trace w
       ++ TabsCreate (searchPrefix searchEngine ++ encoded)%string
          :: afterCreate
               (Host.tabs_create host
                  (searchPrefix searchEngine ++ encoded)%string)).
Proof.
  intros Hq He. unfold handleSearch, searchPrefix, bind, get, eval, ret.
  rewrite (str_truthy_nonempty Hq).
  destruct (String.eqb_spec searchEngine "google") as [->|_]; simpl;
    [|destruct (String.eqb searchEngine "bing"); simpl;
      [|destruct (String.eqb searchEngine "duckduckgo"); simpl]];
    rewrite He; unfold call, emit; simpl;
    match goal with
    | |- context [Host.tabs_create host ?u] =>
        destruct (Host.tabs_create host u)
    end; simpl; rewrite <- ?app_assoc; reflexivity.
Qed.

Lemma handleSearch_throws
    (host : Host.t) (searchEngine : string) (e : Error) (w : World) :
  Popup.searchValue (popup w) <> EmptyString ->
  encodeURIComponent (Popup.searchValue (popup w)) = Err e ->
  handleSearch host searchEngine w = (Err e, w).
Proof.
  intros Hq He. unfold handleSearch, bind, get, eval, ret.
  rewrite (str_truthy_nonempty Hq).
  destruct (String.eqb searchEngine "google"); simpl;
    [|destruct (String.eqb searchEngine "bing"); simpl;
      [|destruct (String.eqb searchEngine "duckduckgo"); simpl]];
    rewrite He; reflexivity.
Qed.

(** C9.  With an empty query [handleSearch] does nothing, whatever the
    search engine: it resolves, and the component state and the trace (so
    no [browser.tabs.create], no [window.close]) are as before.  With a
    non-empty query it calls [browser.tabs.create] once, unless the query
    cannot be encoded: then it rejects with the error of the encoder before
    any call. *)
Theorem handleSearch_empty_query_is_noop
    (host : Host.t) (searchEngine : string) (w : World) :
  (Popup.searchValue (popup w) = EmptyString ->
   handleSearch host searchEngine w = (Ok tt, w))
  /\ (Popup.searchValue (popup w) <> EmptyString ->
      (forall encoded,
         encodeURIComponent (Popup.searchValue (popup w)) = Ok encoded ->
         exists url,
           snd (handleSearch host searchEngine w)
           = mkWorld (popup w)
               (trace w ++ TabsCreate url
                            :: afterCreate (Host.tabs_create host url)))
      /\ (forall e,
            encodeURIComponent (Popup.searchValue (popup w)) = Err e ->
            handleSearch host searchEngine w = (Err e, w))).
Proof.
  split.
  - unfold handleSearch, bind, get, ret. intros ->. reflexivity.
  - intros Hq. split.
    + intros encoded He. eexists. apply (handleSearch_encoded _ _ _ Hq He).
    + intros e He. now apply handleSearch_throws.
Qed.

(** C10.  Selecting an item that lacks the field its action needs does
    nothing: a tab without [id] does not reach [switchToTab], and a closed
    tab, a bookmark or a history entry without [url] does not reach
    [reopenTab]; the handler returns with state and trace unchanged (no host
    call, no [window.close]). *)
Theorem onSelect_without_field_is_noop (host : Host.t) (w : World) :
  (forall tab, TabItem.id tab = None -> onSelectTab host tab w = (Ok tt, w))
  /\ (forall tab, TabItem.url tab = None ->
                  onSelectClosedTab host tab w = (Ok tt, w))
  /\ (forall item, BookmarkItem.url item = None ->
                   onSelectBookmark host item w = (Ok tt, w))
  /\ (forall item, HistoryItem.url item = None ->
                   onSelectHistory host item w = (Ok tt, w)).
Proof.
  unfold onSelectTab, onSelectClosedTab, onSelectBookmark, onSelectHistory,
    onSelectUrl.
  repeat split; intros x ->; reflexivity.
Qed.

(** ** Regular expressions: the matcher decides the language *)

Module RegExpFacts.
Import RegExp.
Local Open Scope list_scope.

Lemma Lang_Fail (s : list ascii) : ~ Lang Fail s.
Proof. intros H; inversion H. Qed.

Lemma Lang_Eps (s : list ascii) : Lang Eps s <-> s = [].
Proof. split; intros H; [now inversion H | subst; constructor]. Qed.

Lemma Lang_Class (cs : list range) (s : list ascii) :
  Lang (Class cs) s <-> exists c, s = [c] /\ in_class cs c = true.
Proof.
  split.
  - intros H; inversion H; subst; eauto.
  - intros (c & -> & H). now constructor.
Qed.

Lemma Lang_Cat (a b : t) (s : list ascii) :
  Lang (Cat a b) s <->
  exists s1 s2, s = s1 ++ s2 /\ Lang a s1 /\ Lang b s2.
Proof.
  split.
  - intros H; inversion H; subst; eauto.
  - intros (s1 & s2 & -> & H1 & H2). now constructor.
Qed.

Lemma Lang_Alt (a b : t) (s : list ascii) :
  Lang (Alt a b) s <-> Lang a s \/ Lang b s.
Proof.
  split.
  - intros H; inversion H; subst; auto.
  - intros [H|H]; [now apply L_alt_l | now apply L_alt_r].
Qed.

(** A non-empty word of [a*] starts with a non-empty word of [a]. *)
Lemma Lang_Star_cons (a : t) (c : ascii) (s : list ascii) :
  Lang (Star a) (c :: s) <->
  exists s1 s2, s = s1 ++ s2 /\ Lang a (c :: s1) /\ Lang (Star a) s2.
Proof.
  split.
  - intros H. remember (Star a) as r eqn:Hr. remember (c :: s) as u eqn:Hu.
    revert Hr Hu.
    induction H as [| | | | | |a' s1 s2 H1 _ H2 IH2]; try discriminate.
    intros Hr Hu. injection Hr as ->.
    destruct s1 as [|c1 s1]; simpl in Hu.
    + now apply IH2.
    + injection Hu as -> <-. eauto.
  - intros (s1 & s2 & -> & H1 & H2).
    change (c :: s1 ++ s2) with ((c :: s1) ++ s2). now constructor.
Qed.

Lemma nullable_Lang (r : t) : nullable r = true <-> Lang r [].
Proof.
  induction r as [| |cs|a IHa b IHb|a IHa b IHb|a IHa]; simpl.
  - split; [discriminate | intros H; inversion H].
  - split; [constructor | reflexivity].
  - split; [discriminate | intros H; inversion H].
  - rewrite andb_true_iff, IHa, IHb, Lang_Cat. split.
    + intros [Ha Hb]. exists [], []. auto.
    + intros (s1 & s2 & Hs & Ha & Hb). symmetry in Hs.
      apply app_eq_nil in Hs as [-> ->]. auto.
  - now rewrite orb_true_iff, IHa, IHb, Lang_Alt.
  - split; [constructor | reflexivity].
Qed.

Lemma range_eqb_eq (x y : range) : range_eqb x y = true -> x = y.
Proof.
  destruct x, y; unfold range_eqb; simpl.
  rewrite andb_true_iff, !Ascii.eqb_eq. now intros [-> ->].
Qed.

Lemma class_eqb_eq (xs ys : list range) : class_eqb xs ys = true -> xs = ys.
Proof.
  revert ys; induction xs as [|x xs IH]; intros [|y ys]; simpl;
    try discriminate; [reflexivity|].
  rewrite andb_true_iff. intros [Hx Hxs].
  apply range_eqb_eq in Hx. apply IH in Hxs. now subst.
Qed.

Lemma eqb_eq (x y : t) : eqb x y = true -> x = y.
Proof.
  revert y; induction x as [| |cs|a IHa b IHb|a IHa b IHb|a IHa];
    intros [| |ds|c d|c d|c]; simpl; try discriminate; try reflexivity.
  - intros H. now rewrite (class_eqb_eq _ _ H).
  - rewrite andb_true_iff. intros [H1 H2].
    now rewrite (IHa _ H1), (IHb _ H2).
  - rewrite andb_true_iff. intros [H1 H2].
    now rewrite (IHa _ H1), (IHb _ H2).
  - intros H. now rewrite (IHa _ H).
Qed.

Lemma Cat_Fail_l (b : t) (s : list ascii) : Lang (Cat Fail b) s <-> False.
Proof.
  rewrite Lang_Cat. split; [|tauto].
  intros (s1 & s2 & _ & H & _). now apply Lang_Fail in H.
Qed.

Lemma Cat_Fail_r (a : t) (s : list ascii) : Lang (Cat a Fail) s <-> False.
Proof.
  rewrite Lang_Cat. split; [|tauto].
  intros (s1 & s2 & _ & _ & H). now apply Lang_Fail in H.
Qed.

Lemma Cat_Eps_l (b : t) (s : list ascii) : Lang (Cat Eps b) s <-> Lang b s.
Proof.
  rewrite Lang_Cat. split.
  - intros (s1 & s2 & -> & H1 & H2). apply Lang_Eps in H1. now subst.
  - intros H. exists [], s. repeat split; [constructor | exact H].
Qed.

Lemma Cat_Eps_r (a : t) (s : list ascii) : Lang (Cat a Eps) s <-> Lang a s.
Proof.
  rewrite Lang_Cat. split.
  - intros (s1 & s2 & -> & H1 & H2). apply Lang_Eps in H2. subst.
    now rewrite app_nil_r.
  - intros H. exists s, []. rewrite app_nil_r.
    repeat split; [exact H | constructor].
Qed.

Lemma mkCat_Lang (a b : t) (s : list ascii) :
  Lang (mkCat a b) s <-> Lang (Cat a b) s.
Proof.
  assert (HF : forall u, Lang Fail u <-> False).
  { intros u. split; [apply Lang_Fail | tauto]. }
  destruct a, b; simpl;
    rewrite ?Cat_Fail_l, ?Cat_Fail_r, ?Cat_Eps_l, ?Cat_Eps_r, ?HF;
    reflexivity.
Qed.

Lemma mkAlt_Lang (a b : t) (s : list ascii) :
  Lang (mkAlt a b) s <-> Lang a s \/ Lang b s.
Proof.
  assert (HF : forall u, Lang Fail u <-> False).
  { intros u. split; [apply Lang_Fail | tauto]. }
  assert (Hdup : Lang (if eqb a b then a else Alt a b) s
                 <-> Lang a s \/ Lang b s).
  { destruct (eqb a b) eqn:E.
    - apply eqb_eq in E. subst. tauto.
    - apply Lang_Alt. }
  destruct a, b; simpl; rewrite ?HF; try exact Hdup; tauto.
Qed.

Lemma deriv_Lang (c : ascii) (r : t) (s : list ascii) :
  Lang (deriv c r) s <-> Lang r (c :: s).
Proof.
  revert s.
  induction r as [| |cs|a IHa b IHb|a IHa b IHb|a IHa]; intros s; simpl.
  - split; intros H; inversion H.
  - split; intros H; inversion H.
  - rewrite Lang_Class. destruct (in_class cs c) eqn:E.
    + rewrite Lang_Eps. split.
      * intros ->. eauto.
      * intros (x & Hx & _). now injection Hx.
    + split; [intros H; inversion H|].
      intros (x & Hx & Hin). injection Hx as -> _. congruence.
  - assert (Hcat : Lang (Cat a b) (c :: s) <->
                   Lang (Cat (deriv c a) b) s
                   \/ (nullable a = true /\ Lang (deriv c b) s)).
    { rewrite !Lang_Cat, nullable_Lang, IHb. split.
      - intros (s1 & s2 & Hs & H1 & H2). destruct s1 as [|c1 s1].
        + simpl in Hs. subst s2. auto.
        + injection Hs as -> ->. left. exists s1, s2.
          rewrite IHa. auto.
      - intros [(s1 & s2 & -> & H1 & H2)|[H1 H2]].
        + exists (c :: s1), s2. rewrite <- IHa. auto.
        + exists [], (c :: s). auto. }
    rewrite Hcat. destruct (nullable a).
    + rewrite mkAlt_Lang, mkCat_Lang. intuition congruence.
    + rewrite mkCat_Lang. intuition congruence.
  - now rewrite mkAlt_Lang, IHa, IHb, Lang_Alt.
  - rewrite mkCat_Lang, Lang_Cat, Lang_Star_cons.
    split; intros (s1 & s2 & Hs & H1 & H2); exists s1, s2;
      (rewrite IHa in * || rewrite <- IHa in *); auto.
Qed.

Theorem matches_Lang (r : t) (s : list ascii) :
  matches r s = true <-> Lang r s.
Proof.
  revert r; induction s as [|c s IH]; intros r; simpl.
  - apply nullable_Lang.
  - now rewrite IH, deriv_Lang.
Qed.

Theorem matches_prefix_Lang (r : t) (s : list ascii) :
  matches_prefix r s = true <->
  exists s1 s2, s = s1 ++ s2 /\ Lang r s1.
Proof.
  revert r; induction s as [|c s IH]; intros r; simpl;
    rewrite orb_true_iff, nullable_Lang.
  - split.
    + intros [H|H]; [|discriminate]. exists [], []. auto.
    + intros (s1 & s2 & Hs & H). symmetry in Hs.
      apply app_eq_nil in Hs as [-> _]. auto.
  - rewrite IH. split.
    + intros [H|(s1 & s2 & -> & H)].
      * exists [], (c :: s). auto.
      * exists (c :: s1), s2. rewrite <- deriv_Lang. auto.
    + intros (s1 & s2 & Hs & H). destruct s1 as [|c1 s1]; [auto|].
      injection Hs as -> ->. right. exists s1, s2.
      rewrite deriv_Lang. auto.
Qed.

Lemma in_one (c x : ascii) : in_class (one c) x = true <-> x = c.
Proof.
  unfold in_class, one, in_range; simpl.
  rewrite orb_false_r, andb_true_iff, !N.leb_le. split.
  - intros [H1 H2].
    rewrite <- (ascii_N_embedding x), <- (ascii_N_embedding c).
    f_equal. lia.
  - intros ->. lia.
Qed.

Lemma Lang_Chr (c : ascii) (s : list ascii) : Lang (Chr c) s <-> s = [c].
Proof.
  unfold Chr. rewrite Lang_Class. split.
  - intros (x & -> & H). apply (in_one c x) in H. now subst.
  - intros ->. exists c. split; [reflexivity|]. now apply (in_one c c).
Qed.

Lemma Lang_Lit (p : string) (s : list ascii) :
  Lang (Lit p) s <-> s = list_ascii_of_string p.
Proof.
  revert s; induction p as [|c p IH]; intros s; simpl.
  - apply Lang_Eps.
  - rewrite Lang_Cat. split.
    + intros (s1 & s2 & -> & H1 & H2).
      apply Lang_Chr in H1. apply IH in H2. now subst.
    + intros ->. exists [c], (list_ascii_of_string p).
      rewrite Lang_Chr, IH. auto.
Qed.

Lemma Lang_Star_Class (cs : list range) (s : list ascii) :
  Lang (Star (Class cs)) s -> Forall (fun c => in_class cs c = true) s.
Proof.
  induction s as [|c s IH]; intros H; [constructor|].
  apply Lang_Star_cons in H as (s1 & s2 & -> & H1 & H2).
  apply Lang_Class in H1 as (x & Hx & Hin).
  injection Hx as -> ->. constructor; [exact Hin|]. now apply IH.
Qed.
End RegExpFacts.

(** ** The two expressions of the component *)

Section UrlShape.
Import RegExp RegExpFacts.
Local Open Scope list_scope.

Lemma list_ascii_of_string_app (a b : string) :
  list_ascii_of_string (a ++ b)%string
  = list_ascii_of_string a ++ list_ascii_of_string b.
Proof. induction a as [|c a IH]; simpl; [reflexivity | now rewrite IH]. Qed.

Lemma list_ascii_of_string_inj (a b : string) :
  list_ascii_of_string a = list_ascii_of_string b -> a = b.
Proof.
  intros H. rewrite <- (string_of_list_ascii_of_string a), H.
  apply string_of_list_ascii_of_string.
Qed.

Lemma Lang_Opt (a : t) (s : list ascii) :
  Lang (Opt a) s <-> Lang a s \/ s = [].
Proof. unfold Opt. now rewrite Lang_Alt, Lang_Eps. Qed.

Lemma Lang_scheme_re (s : list ascii) :
  Lang scheme_re s <->
  s = list_ascii_of_string "http://" \/ s = list_ascii_of_string "https://".
Proof.
  unfold scheme_re. rewrite Lang_Cat. split.
  - intros (s1 & s2 & -> & H1 & H2).
    apply Lang_Lit in H1. subst s1.
    apply Lang_Cat in H2 as (o & s3 & -> & Ho & H3).
    apply Lang_Lit in H3. subst s3.
    apply Lang_Opt in Ho as [Ho| ->].
    + apply Lang_Chr in Ho. subst o. now right.
    + now left.
  - intros [-> | ->].
    + exists (list_ascii_of_string "http"), (list_ascii_of_string "://").
      split; [reflexivity|]. split; [now apply Lang_Lit|].
      apply Lang_Cat. exists [], (list_ascii_of_string "://").
      split; [reflexivity|]. split; [apply Lang_Opt; now right|].
      now apply Lang_Lit.
    + exists (list_ascii_of_string "http"), (list_ascii_of_string "s://").
      split; [reflexivity|]. split; [now apply Lang_Lit|].
      apply Lang_Cat. exists ["s"%char], (list_ascii_of_string "://").
      split; [reflexivity|]. split; [apply Lang_Opt; left; now apply Lang_Chr|].
      now apply Lang_Lit.
Qed.

(** [url.match(/^https?:\/\//)] succeeds exactly on the strings that start
    with [http://] or with [https://]. *)
Lemma has_http_scheme_spec (url : string) :
  has_http_scheme url = true <->
  exists rest, url = ("http://" ++ rest)%string
               \/ url = ("https://" ++ rest)%string.
Proof.
  unfold has_http_scheme. rewrite matches_prefix_Lang. split.
  - intros (s1 & s2 & Hs & H). exists (string_of_list_ascii s2).
    apply Lang_scheme_re in H as [-> | ->]; [left | right];
      apply list_ascii_of_string_inj;
      now rewrite list_ascii_of_string_app,
        list_ascii_of_string_of_list_ascii.
  - intros (rest & [-> | ->]); rewrite list_ascii_of_string_app;
      eexists; eexists; (split; [reflexivity|]);
      apply Lang_scheme_re; auto.
Qed.

(** A string that [isUrl] accepts has a dot followed by two characters of
    [[a-z.]], and in front of that dot only the optional scheme and host
    characters: no space. *)
Lemma isUrl_dot (q : string) :
  isUrl q = true ->
  exists p t1 t2 r,
    list_ascii_of_string q = p ++ "."%char :: t1 :: t2 :: r
    /\ ~ In " "%char p
    /\ in_class tld_class t1 = true /\ in_class tld_class t2 = true.
Proof.
  unfold isUrl. rewrite matches_Lang. unfold url_re. intros H.
  apply Lang_Cat in H as (s0 & u0 & -> & H0 & H).
  apply Lang_Cat in H as (s1 & u1 & -> & H1 & H).
  apply Lang_Cat in H as (s2 & u2 & -> & H2 & H).
  apply Lang_Chr in H2. subst s2.
  apply Lang_Cat in H as (s3 & u3 & -> & H3 & _).
  simpl Rep in H3.
  apply Lang_Cat in H3 as (a1 & v1 & -> & Ha1 & H3).
  apply Lang_Cat in H3 as (a2 & v2 & -> & Ha2 & _).
  apply Lang_Class in Ha1 as (t1 & -> & Ht1).
  apply Lang_Class in Ha2 as (t2 & -> & Ht2).
  exists (s0 ++ s1), t1, t2, (v2 ++ u3).
  split; [simpl; now rewrite <- !app_assoc|].
  split; [|now split].
  rewrite in_app_iff. intros [Hin|Hin].
  - apply Lang_Opt in H0 as [H0| ->]; [|exact Hin].
    apply Lang_scheme_re in H0 as [-> | ->]; simpl in Hin;
      repeat (destruct Hin as [Hin|Hin]; [discriminate|]); exact Hin.
  - unfold Plus in H1. apply Lang_Cat in H1 as (c & u & -> & Hc & Hu).
    apply Lang_Class in Hc as (x & -> & Hx).
    apply Lang_Star_Class in Hu.
    assert (Hall : Forall (fun c => in_class host_class c = true) (x :: u))
      by now constructor.
    rewrite Forall_forall in Hall. apply Hall in Hin. discriminate.
Qed.

Lemma tld_at_intro (p r : list ascii) (t1 t2 : ascii) :
  in_class tld_class t1 = true -> in_class tld_class t2 = true ->
  tld_at (p ++ "."%char :: t1 :: t2 :: r) = true.
Proof.
  intros H1 H2. induction p as [|c p IH].
  - cbn [app tld_at]. rewrite H1, H2. reflexivity.
  - change ((c :: p) ++ "."%char :: t1 :: t2 :: r)
      with (c :: (p ++ "."%char :: t1 :: t2 :: r)).
    simpl tld_at. rewrite IH. apply orb_true_r.
Qed.

Lemma space_first_spec (s : list ascii) :
  space_first s = true ->
  forall p r, s = p ++ "."%char :: r -> In " "%char p.
Proof.
  induction s as [|c s IH]; simpl; [discriminate|].
  intros H p r Hs. destruct p as [|x p]; simpl in Hs.
  - injection Hs as -> _. discriminate.
  - injection Hs as <- ->.
    destruct (Ascii.eqb_spec c " ") as [->|_]; [now left|].
    destruct (Ascii.eqb c "."); [discriminate|].
    right. eapply IH; [exact H | reflexivity].
Qed.

Lemma isUrl_false (q : string) :
  has_tld q = false \/ space_before_dot q = true -> isUrl q = false.
Proof.
  intros H. destruct (isUrl q) eqn:E; [exfalso | reflexivity].
  apply isUrl_dot in E as (p & t1 & t2 & r & Hs & Hp & Ht1 & Ht2).
  destruct H as [H|H].
  - unfold has_tld in H. rewrite Hs, tld_at_intro in H by assumption.
    discriminate.
  - apply Hp. eapply space_first_spec; [exact H | exact Hs].
Qed.
End UrlShape.

(** ** Keyboard router *)

Lemma str_truthy_true (s : string) : s <> EmptyString -> str_truthy s = true.
Proof.
  intros H. unfold str_truthy. apply negb_true_iff.
  destruct (String.eqb_spec s EmptyString); [contradiction | reflexivity].
Qed.

(** What [handleSearch("google")] does with a non-empty query that can be
    encoded. *)
Lemma handleSearch_google (host : Host.t) (encoded : string) (w : World) :
  Popup.searchValue (popup w) <> EmptyString ->
  encodeURIComponent (Popup.searchValue (popup w)) = Ok encoded ->
  snd (handleSearch host "google" w)
  = mkWorld (popup w)
      (trace w
       ++ TabsCreate ("https://www.google.com/search?q=" ++ encoded)
          :: afterCreate
               (Host.tabs_create host
                  ("https://www.google.com/search?q=" ++ encoded))).
Proof.
  intros Hq He. exact (handleSearch_encoded host "google" w Hq He).
Qed.

Lemma handleUrlNavigation_trace (host : Host.t) (url : string) (w : World) :
  snd (handleUrlNavigation host url w)
  = mkWorld (popup w)
      (trace w
       ++ TabsCreate (if has_http_scheme url then url else "https://" ++ url)
          :: afterCreate
               (Host.tabs_create host
                  (if has_http_scheme url then url else "https://" ++ url))).
Proof.
  unfold handleUrlNavigation, bind, call, emit.
  destruct (Host.tabs_create host _); simpl;
    rewrite <- ?app_assoc; reflexivity.
Qed.

(** The [Enter] branch of [handleKeyDown]. *)
Lemma handleKeyDown_enter (host : Host.t) (e : KeyboardEvent.t) (w : World) :
  KeyboardEvent.key e = "Enter" ->
  (KeyboardEvent.metaKey e || KeyboardEvent.ctrlKey e)%bool = true ->
  handleKeyDown host e w
  = (Ok tt,
     snd ((if (isUrl (Popup.searchValue (popup w))
               && KeyboardEvent.shiftKey e)%bool
           then handleUrlNavigation host (Popup.searchValue (popup w))
           else handleSearch host "google")
            (mkWorld (popup w) (trace w ++ [PreventDefault])))).
Proof.
  intros Hk Hm. unfold handleKeyDown, bind, get, emit, detached.
  rewrite Hk, Hm. simpl.
  destruct (isUrl (Popup.searchValue (popup w)) && KeyboardEvent.shiftKey e)%bool;
    reflexivity.
Qed.

(** C4, as the code has it.  With a non-empty query [q], [Enter] with Ctrl
    or Cmd consumes the event's default action.  Without Shift, and when [q]
    can be URI-component-encoded (it holds no lone surrogate), a tab is
    created at the Google search address for the encoded [q], whether or not
    [q] is URL-shaped; when [q] cannot be encoded, [encodeURIComponent]
    throws and nothing more happens.  With Shift and a URL-shaped [q] a tab
    is created at [q] itself, with [https://] in front unless [q] starts
    with [http://] or [https://].  The popup closes once the host has
    created the tab. *)
Theorem handleKeyDown_enter_search_or_navigate
    (host : Host.t) (e : KeyboardEvent.t) (w : World)
    (Hq : Popup.searchValue (popup w) <> EmptyString)
    (Hkey : KeyboardEvent.key e = "Enter")
    (Hmod : (KeyboardEvent.metaKey e || KeyboardEvent.ctrlKey e)%bool = true) :
  (KeyboardEvent.shiftKey e = false ->
   lone_surrogate (Popup.searchValue (popup w)) = false ->
   encodeURIComponent (Popup.searchValue (popup w))
   = Ok (encodeBytes (Popup.searchValue (popup w)))
   /\ handleKeyDown host e w
      = (Ok tt,
         mkWorld (popup w)
           (trace w
            ++ PreventDefault
               :: TabsCreate ("https://www.google.com/search?q="
                              ++ encodeBytes (Popup.searchValue (popup w)))
               :: afterCreate
                    (Host.tabs_create host
                       ("https://www.google.com/search?q="
                        ++ encodeBytes (Popup.searchValue (popup w)))))))
  /\ (KeyboardEvent.shiftKey e = false ->
      lone_surrogate (Popup.searchValue (popup w)) = true ->
      handleKeyDown host e w
      = (Ok tt, mkWorld (popup w) (trace w ++ [PreventDefault])))
  /\ (KeyboardEvent.shiftKey e = true ->
      isUrl (Popup.searchValue (popup w)) = true ->
      exists target,
        handleKeyDown host e w
        = (Ok tt,
           mkWorld (popup w)
             (trace w
              ++ PreventDefault
                 :: TabsCreate target
                 :: afterCreate (Host.tabs_create host target)))
        /\ ((exists rest,
               Popup.searchValue (popup w) = "http://" ++ rest
               \/ Popup.searchValue (popup w) = "https://" ++ rest) ->
            target = Popup.searchValue (popup w))
        /\ (~ (exists rest,
                 Popup.searchValue (popup w) = "http://" ++ rest
                 \/ Popup.searchValue (popup w) = "https://" ++ rest) ->
            target = "https://" ++ Popup.searchValue (popup w))).
Proof.
  split; [|split].
  - intros Hs Hwf.
    assert (He : encodeURIComponent (Popup.searchValue (popup w))
                 = Ok (encodeBytes (Popup.searchValue (popup w)))).
    { unfold encodeURIComponent. now rewrite Hwf. }
    split; [exact He|].
    rewrite (handleKeyDown_enter host e w Hkey Hmod).
    rewrite Hs, andb_false_r.
    erewrite handleSearch_google; [|exact Hq|exact He].
    simpl. now rewrite <- app_assoc.
  - intros Hs Hbad.
    rewrite (handleKeyDown_enter host e w Hkey Hmod).
    rewrite Hs, andb_false_r.
    erewrite handleSearch_throws; [reflexivity | exact Hq |].
    unfold encodeURIComponent. simpl. rewrite Hbad. reflexivity.
  - intros Hs Hurl.
    exists (if has_http_scheme (Popup.searchValue (popup w))
            then Popup.searchValue (popup w)
            else "https://" ++ Popup.searchValue (popup w)).
    split; [|split].
    + rewrite (handleKeyDown_enter host e w Hkey Hmod).
      rewrite Hs, Hurl. cbn [andb]. rewrite handleUrlNavigation_trace. simpl.
      now rewrite <- app_assoc.
    + intros H. apply has_http_scheme_spec in H. now rewrite H.
    + intros H. destruct (has_http_scheme _) eqn:E; [|reflexivity].
      apply has_http_scheme_spec in E. contradiction.
Qed.

(** The scenario of the specification: the query is [https://example.com]
    and Ctrl+Enter is pressed. *)
Lemma handleKeyDown_enter_search_or_navigate_witness :
  handleKeyDown quietHost (KeyboardEvent.mk "Enter" true false false false)
    (mkWorld (Popup.setSearchValue "https://example.com" Popup.initial) [])
  = (Ok tt,
     mkWorld (Popup.setSearchValue "https://example.com" Popup.initial)
       [PreventDefault;
        TabsCreate "https://www.google.com/search?q=https%3A%2F%2Fexample.com";
        WindowClose]).
Proof.
  refine (proj2 (proj1 (@handleKeyDown_enter_search_or_navigate quietHost
                          (KeyboardEvent.mk "Enter" true false false false)
                          (mkWorld (Popup.setSearchValue "https://example.com"
                                      Popup.initial) [])
                          _ _ _) _ _));
    [discriminate | reflexivity | reflexivity | reflexivity | reflexivity].
Defined.

(** C4 as stated fails: the query is not empty, Ctrl+Enter is pressed, and
    no tab is created, because the query is a lone surrogate and
    [encodeURIComponent] throws. *)
Lemma handleKeyDown_enter_lone_surrogate_counterexample :
  loneSurrogate <> EmptyString
  /\ encodeURIComponent loneSurrogate = Err (URIError "URI malformed")
  /\ handleKeyDown quietHost (KeyboardEvent.mk "Enter" true false false false)
       (mkWorld (Popup.setSearchValue loneSurrogate Popup.initial) [])
     = (Ok tt,
        mkWorld (Popup.setSearchValue loneSurrogate Popup.initial)
          [PreventDefault]).
Proof. repeat split; try reflexivity; discriminate. Qed.

(** The same query with Ctrl+Shift+Enter: the tab opens at the query. *)
Example ctrl_shift_enter_navigates :
  handleKeyDown quietHost (KeyboardEvent.mk "Enter" true false true false)
    (mkWorld (Popup.setSearchValue "https://example.com" Popup.initial) [])
  = (Ok tt,
     mkWorld (Popup.setSearchValue "https://example.com" Popup.initial)
       [PreventDefault; TabsCreate "https://example.com"; WindowClose]).
Proof. reflexivity. Qed.

Example ctrl_shift_enter_adds_https :
  trace (snd (handleKeyDown quietHost
                (KeyboardEvent.mk "Enter" false true true false)
                (mkWorld (Popup.setSearchValue "example.com" Popup.initial) [])))
  = [PreventDefault; TabsCreate "https://example.com"; WindowClose].
Proof. reflexivity. Qed.

(** C5, as the code has it.  A query is not URL-shaped when it has nothing
    that looks like a top-level domain (no dot followed by two characters of
    [[a-z.]]), or when a space occurs in it before any dot; then the quick
    actions offer only the web search, and Ctrl or Cmd with Shift and Enter
    runs the web search.  (A space after the dotted host does not prevent a
    match: see the counterexample.) *)
Theorem isUrl_rejects_dotless_and_space_first
    (q : string)
    (Hshape : has_tld q = false \/ space_before_dot q = true) :
  isUrl q = false
  /\ ~ In (NavigateTo q) (quickActions q)
  /\ (forall (host : Host.t) (e : KeyboardEvent.t) (w : World),
        Popup.searchValue (popup w) = q ->
        KeyboardEvent.key e = "Enter" ->
        (KeyboardEvent.metaKey e || KeyboardEvent.ctrlKey e)%bool = true ->
        handleKeyDown host e w
        = (Ok tt,
           snd (handleSearch host "google"
                  (mkWorld (popup w) (trace w ++ [PreventDefault]))))).
Proof.
  assert (Hno : isUrl q = false) by now apply isUrl_false.
  split; [exact Hno|]. split.
  - unfold quickActions. rewrite Hno.
    destruct (str_truthy q); simpl; intuition discriminate.
  - intros host e w Hq Hkey Hmod.
    rewrite (handleKeyDown_enter host e w Hkey Hmod), Hq, Hno. reflexivity.
Qed.

Lemma isUrl_rejects_dotless_and_space_first_witness :
  isUrl "test" = false /\ quickActions "test" = [SearchGoogle "test"].
Proof.
  split; [|reflexivity].
  exact (proj1 (@isUrl_rejects_dotless_and_space_first "test"
                  (or_introl eq_refl))).
Defined.

(** The scenario of the specification: a URL-shaped query gets both quick
    actions. *)
Example quickActions_url :
  quickActions "https://example.com"
  = [SearchGoogle "https://example.com"; NavigateTo "https://example.com"].
Proof. reflexivity. Qed.

(** C5 as stated fails: this query contains a space and [isUrl] accepts it,
    so the quick actions offer "Navigate to" for it. *)
Lemma isUrl_accepts_space_counterexample :
  contains_space "example.com b" = true
  /\ isUrl "example.com b" = true
  /\ quickActions "example.com b"
     = [SearchGoogle "example.com b"; NavigateTo "example.com b"].
Proof. repeat split; reflexivity. Qed.

(** ** Domain extraction *)

(** C6, as the code has it.  [extractDomain] never throws, whatever the
    [URL] constructor does; it returns its argument unchanged when the
    constructor throws and when the argument starts with [about:]; for any
    other argument that the constructor accepts it returns the parsed host
    name.  So the text rendered under a title never fails either. *)
Theorem extractDomain_total_with_fallback
    (URL_new : string -> Result URL.t) (url : string) :
  (exists domain, extractDomain URL_new url = Ok domain)
  /\ (forall e, URL_new url = Err e -> extractDomain URL_new url = Ok url)
  /\ (startsWith url "about:" = true -> extractDomain URL_new url = Ok url)
  /\ (forall u, startsWith url "about:" = false -> URL_new url = Ok u ->
                extractDomain URL_new url = Ok (URL.hostname u))
  /\ (exists text, tabUrlText URL_new (Some url) = Ok text).
Proof.
  assert (Htotal : exists domain, extractDomain URL_new url = Ok domain).
  { unfold extractDomain. destruct (startsWith url "about:"); [eauto|].
    destruct (URL_new url); eauto. }
  split; [exact Htotal|].
  unfold tabUrlText, extractDomain in *.
  destruct (startsWith url "about:").
  - repeat split; eauto; try discriminate.
    destruct (str_truthy url); eauto.
  - destruct (URL_new url) as [u|e]; repeat split; eauto;
      try discriminate; try congruence; destruct (str_truthy url); eauto.
Qed.

(** C6 as stated fails: this address starts with a scheme other than
    [http] and [https], and what comes back is the parsed host name, which
    is neither the address nor its scheme prefix. *)
Lemma extractDomain_ftp_counterexample :
  has_other_scheme "ftp://example.com/" = true
  /\ extractDomain URL.parse "ftp://example.com/" = Ok "example.com"
  /\ "example.com" <> "ftp://example.com/"
  /\ "example.com" <> "ftp:".
Proof. repeat split; try reflexivity; discriminate. Qed.

Example extractDomain_about :
  extractDomain URL.parse "about:blank" = Ok "about:blank".
Proof. reflexivity. Qed.

Example extractDomain_unparsable :
  extractDomain URL.parse "not a url" = Ok "not a url".
Proof. reflexivity. Qed.

(** ** Filter keys *)

Lemma filterOfKey_cases (key : string) (k : FilterName) :
  filterOfKey key = Some k ->
  (key = "1" /\ k = FAll) \/ (key = "2" /\ k = FTab)
  \/ (key = "3" /\ k = FHistory) \/ (key = "4" /\ k = FBookmark).
Proof.
  unfold filterOfKey.
  destruct (String.eqb_spec key "1"); [intros [= <-]; auto|].
  destruct (String.eqb_spec key "2"); [intros [= <-]; auto|].
  destruct (String.eqb_spec key "3"); [intros [= <-]; auto|].
  destruct (String.eqb_spec key "4"); [intros [= <-]; auto 6|].
  discriminate.
Qed.

(** C7, as the code has it.  A keydown with Ctrl or Cmd whose key is 1, 2,
    3 or 4 applies [handleFilterClick] for all, tab, history or bookmark,
    prevents the default action and stops propagation, whatever the other
    modifiers are; a keydown that is neither such a chord nor Enter with
    Ctrl or Cmd leaves state and event untouched. *)
Theorem handleKeyDown_filter_digits
    (host : Host.t) (e : KeyboardEvent.t) (w : World) :
  (forall k,
     (KeyboardEvent.ctrlKey e || KeyboardEvent.metaKey e)%bool = true ->
     filterOfKey (KeyboardEvent.key e) = Some k ->
     handleKeyDown host e w
     = (Ok tt,
        mkWorld
          (Popup.setFilters (handleFilterClick (Popup.filters (popup w)) k)
             (popup w))
          (trace w ++ [PreventDefault; StopPropagation])))
  /\ (filterOfKey (KeyboardEvent.key e) = None ->
      KeyboardEvent.key e <> "Enter" ->
      handleKeyDown host e w = (Ok tt, w))
  /\ ((KeyboardEvent.ctrlKey e || KeyboardEvent.metaKey e)%bool = false ->
      handleKeyDown host e w = (Ok tt, w)).
Proof.
  destruct e as [key ctrl meta shift alt]; simpl.
  unfold handleKeyDown, clickFilter, bind, get, set, emit, ret; simpl.
  split; [|split].
  - intros k Hmod Hk. rewrite (orb_comm meta ctrl), Hmod.
    apply filterOfKey_cases in Hk
      as [[-> ->]|[[-> ->]|[[-> ->]|[-> ->]]]];
      simpl; rewrite <- app_assoc; reflexivity.
  - intros Hk Hne. unfold filterOfKey in Hk.
    destruct (String.eqb_spec key "Enter"); [contradiction|]. simpl.
    destruct (String.eqb key "1"); [discriminate|].
    destruct (String.eqb key "2"); [discriminate|].
    destruct (String.eqb key "3"); [discriminate|].
    destruct (String.eqb key "4"); [discriminate|].
    destruct (ctrl || meta)%bool; reflexivity.
  - intros Hmod. rewrite (orb_comm meta ctrl), Hmod, andb_false_r.
    reflexivity.
Qed.

(** C7 as stated fails: Shift (or Alt) is held together with Ctrl, the key
    is 2, and the tab filter is switched on all the same. *)
Lemma handleKeyDown_shift_digit_counterexample :
  handleKeyDown quietHost (KeyboardEvent.mk "2" true false true false)
    initialWorld
  = (Ok tt,
     mkWorld (Popup.setFilters (Filters.mk false true false false)
                Popup.initial)
       [PreventDefault; StopPropagation])
  /\ handleKeyDown quietHost (KeyboardEvent.mk "2" true false false true)
       initialWorld
     = (Ok tt,
        mkWorld (Popup.setFilters (Filters.mk false true false false)
                   Popup.initial)
          [PreventDefault; StopPropagation]).
Proof. split; reflexivity. Qed.

(** Ctrl+2 once selects the tab filter and clears "all"; once more, and
    "all" is back. *)
Example ctrl_2_twice :
  Popup.filters (popup (snd (handleKeyDown quietHost
                               (KeyboardEvent.mk "2" true false false false)
                               initialWorld)))
  = Filters.mk false true false false
  /\ Popup.filters
       (popup (snd (handleKeyDown quietHost
                      (KeyboardEvent.mk "2" true false false false)
                      (snd (handleKeyDown quietHost
                              (KeyboardEvent.mk "2" true false false false)
                              initialWorld)))))
     = Filters.initial.
Proof. split; reflexivity. Qed.

Local Open Scope list_scope.

(** ** Sequences of filter clicks *)

(** X1.  From a state that satisfies the invariant, clicking the same
    specific filter twice gives the state back.  (Without the invariant it
    does not: with "all" and "tab" both set, two clicks on "tab" clear
    "all".) *)
Theorem handleFilterClick_twice
    (f : Filters.t) (k : FilterName)
    (Hinv : filters_inv f) (Hk : specific k) :
  handleFilterClick (handleFilterClick f k) k = f.
Proof.
  unfold filters_inv in Hinv.
  destruct f as [a t h b]; simpl in Hinv.
  destruct k; try (exfalso; apply Hk; reflexivity);
    destruct a, t, h, b; simpl in *; try reflexivity;
    exfalso; intuition congruence.
Qed.

Lemma handleFilterClick_twice_witness :
  handleFilterClick
    (handleFilterClick (Filters.mk false true true false) FHistory) FHistory
  = Filters.mk false true true false
  /\ handleFilterClick
       (handleFilterClick (Filters.mk true true false false) FTab) FTab
     <> Filters.mk true true false false.
Proof.
  split; [|discriminate].
  refine (@handleFilterClick_twice (Filters.mk false true true false)
            FHistory _ _).
  - unfold filters_inv; simpl; intuition congruence.
  - discriminate.
Defined.

(** X2.  Clicks on two specific filters commute, from any state; a click on
    "all" does not commute with them. *)
Theorem handleFilterClick_commute
    (f : Filters.t) (k1 k2 : FilterName)
    (H1 : specific k1) (H2 : specific k2) :
  handleFilterClick (handleFilterClick f k1) k2
  = handleFilterClick (handleFilterClick f k2) k1.
Proof.
  destruct f as [a t h b].
  destruct k1; try (exfalso; apply H1; reflexivity);
    destruct k2; try (exfalso; apply H2; reflexivity);
    destruct t, h, b; reflexivity.
Qed.

Lemma handleFilterClick_commute_witness :
  handleFilterClick (handleFilterClick Filters.initial FTab) FBookmark
  = handleFilterClick (handleFilterClick Filters.initial FBookmark) FTab
  /\ handleFilterClick (handleFilterClick Filters.initial FTab) FAll
     <> handleFilterClick (handleFilterClick Filters.initial FAll) FTab.
Proof.
  split; [|discriminate].
  apply (@handleFilterClick_commute Filters.initial FTab FBookmark);
    discriminate.
Defined.

Lemma clicks_inv (f : Filters.t) (ks : list FilterName) :
  filters_inv f -> filters_inv (clicks f ks).
Proof.
  unfold clicks. revert f. induction ks as [|k ks IH]; intros f Hf; simpl.
  - exact Hf.
  - apply IH, handleFilterClick_inv_any.
Qed.

(** X3.  Whatever buttons are clicked after the popup opens, in whatever
    order, some filter stays selected, "all" is selected exactly when no
    specific filter is, and so the tab groups, the bookmarks or the history
    stay admitted by the filter. *)
Theorem clicks_keep_a_filter_selected (ks : list FilterName) :
  filters_inv (clicks Filters.initial ks)
  /\ (exists k, getFilter (clicks Filters.initial ks) k = true)
  /\ ((Filters.all (clicks Filters.initial ks)
       || Filters.tab (clicks Filters.initial ks)
       || Filters.bookmark (clicks Filters.initial ks)
       || Filters.history (clicks Filters.initial ks))%bool = true).
Proof.
  assert (Hinv := clicks_inv ks initial_filters_inv).
  split; [exact Hinv|].
  unfold filters_inv in Hinv.
  destruct (clicks Filters.initial ks) as [a t h b]; simpl in *.
  destruct a.
  - split; [exists FAll; reflexivity | reflexivity].
  - destruct t; [split; [exists FTab; reflexivity | reflexivity]|].
    destruct h; [split; [exists FHistory; reflexivity
                        | simpl; now rewrite orb_true_r]|].
    destruct b; [split; [exists FBookmark; reflexivity | reflexivity]|].
    exfalso. intuition congruence.
Qed.

(** ** The groups of open tabs *)


(** X4.  Every open tab is shown in exactly one place or not at all: the
    media tabs, the opened tabs and the hidden tabs (the active tab when it
    is not a media tab) together are the open tabs.  The active tab itself
    is listed under "Media Tabs" when it is audible or muted. *)
Theorem openTabs_split (openTabs : list TabItem.t) :
  Permutation openTabs
    (mediaTabs openTabs ++ activeTabs openTabs ++ hiddenTabs openTabs)
  /\ (List.length (mediaTabs openTabs) + List.length (activeTabs openTabs)
      + List.length (hiddenTabs openTabs) = List.length openTabs)%nat
  /\ (forall tab,
        In tab openTabs -> TabItem.active tab = Some true ->
        isMedia tab = true -> In tab (mediaTabs openTabs))
  /\ (forall tab,
        In tab (hiddenTabs openTabs) ->
        TabItem.active tab = Some true /\ isMedia tab = false).
Proof.
  assert (Hperm : Permutation openTabs
            (mediaTabs openTabs ++ activeTabs openTabs ++ hiddenTabs openTabs)).
  { unfold mediaTabs, activeTabs, hiddenTabs, isMedia.
    induction openTabs as [|x l IH]; [reflexivity|]. cbn [filter].
    destruct (truthy_flag (TabItem.audible x)),
      (truthy_flag (option_map MutedInfo.muted (TabItem.mutedInfo x))),
      (truthy_flag (TabItem.active x)); cbn [orb andb negb app];
      try (now apply perm_skip);
      try (now apply Permutation_cons_app).
    rewrite app_assoc. apply Permutation_cons_app.
    now rewrite <- app_assoc. }
  split; [exact Hperm|]. split; [|split].
  - apply Permutation_length in Hperm. rewrite !length_app in Hperm. lia.
  - intros tab Hin _ Hm. apply In_mediaTabs. auto.
  - intros tab Hin. unfold hiddenTabs in Hin.
    apply filter_In in Hin as [_ Hin].
    apply andb_true_iff in Hin as [Hm Ha].
    apply negb_true_iff in Hm. split; [|exact Hm].
    destruct (TabItem.active tab) as [[|]|]; simpl in Ha; congruence.
Qed.



Section SortStable.
Variable A : Type.
Variable key : A -> Z.

Let cmp (a b : A) : Z := key b - key a.

Lemma sort_insert_stable (k : Z) (x : A) (l : list A) :
  StronglySorted (fun a b => key b <= key a) l ->
  filter (fun a => key a =? k) (sort_insert cmp x l)
  = filter (fun a => key a =? k) (x :: l).
Proof.
  induction 1 as [|y l Hs IH Hy]; [reflexivity|].
  cbn [sort_insert]. destruct (Z.leb_spec (cmp x y) 0) as [Hle|Hgt];
    [reflexivity|].
  cbn [filter] in *. rewrite IH.
  destruct (Z.eqb_spec (key x) k) as [Hx|Hx]; [|reflexivity].
  destruct (Z.eqb_spec (key y) k) as [Hyk|Hyk]; [|reflexivity].
  unfold cmp in Hgt. lia.
Qed.

Lemma Array_sort_stable (k : Z) (l : list A) :
  filter (fun a => key a =? k) (Array_sort cmp l)
  = filter (fun a => key a =? k) l.
Proof.
  induction l as [|x l IH]; [reflexivity|].
  cbn [Array_sort fold_right].
  change (fold_right (sort_insert cmp) [] l) with (Array_sort cmp l).
  rewrite sort_insert_stable by apply Array_sort_sorted.
  cbn [filter]. now rewrite IH.
Qed.
End SortStable.

(** X6.  The sort of [fetchOpenTabs] is stable: the tabs that share a
    timestamp (those without one count as 0) stay in the order in which the
    host listed them. *)
Theorem fetchOpenTabs_keeps_host_order_of_ties
    (host : Host.t) (tabs : list TabItem.t) (w : World) (stamp : Z)
    (Hquery : Host.tabs_query host = Ok tabs) :
  filter (fun t => or0 (TabItem.lastAccessed t) =? stamp)
         (Popup.openTabs (popup (snd (fetchOpenTabs host w))))
  = filter (fun t => or0 (TabItem.lastAccessed t) =? stamp) tabs.
Proof.
  rewrite (fetchOpenTabs_resolved _ _ Hquery). simpl.
  apply (Array_sort_stable (fun t => or0 (TabItem.lastAccessed t))).
Qed.

Lemma fetchOpenTabs_keeps_host_order_of_ties_witness :
  Popup.openTabs
    (popup (snd (fetchOpenTabs
                   (hostWithTabs [tabWith 1 None false false;
                                  tabWith 2 (Some 9) false false;
                                  tabWith 3 None false false])
                   initialWorld)))
  = [tabWith 2 (Some 9) false false; tabWith 1 None false false;
     tabWith 3 None false false]
  /\ filter (fun t => or0 (TabItem.lastAccessed t) =? 0)
       (Popup.openTabs
          (popup (snd (fetchOpenTabs
                         (hostWithTabs [tabWith 1 None false false;
                                        tabWith 2 (Some 9) false false;
                                        tabWith 3 None false false])
                         initialWorld))))
     = [tabWith 1 None false false; tabWith 3 None false false].
Proof.
  split; [reflexivity|].
  exact (@fetchOpenTabs_keeps_host_order_of_ties
           (hostWithTabs [tabWith 1 None false false;
                          tabWith 2 (Some 9) false false;
                          tabWith 3 None false false])
           [tabWith 1 None false false; tabWith 2 (Some 9) false false;
            tabWith 3 None false false]
           initialWorld 0 eq_refl).
Defined.

(** ** The fetchers, slot by slot *)



Lemma fetchRecentlyClosedTabs_resolved
    (host : Host.t) (getRecentlyClosed : Z -> Result (list Session.t))
    (sessions : list Session.t) (w : World) :
  Host.sessions host = Some getRecentlyClosed ->
  getRecentlyClosed 25 = Ok sessions ->
  fetchRecentlyClosedTabs host w
  = (Ok tt,
     mkWorld
       (Popup.setSessionsError EmptyString
          (Popup.setRecentlyClosedTabs
             (Array_sort byLastAccessed (sessionTabs sessions)) (popup w)))
       (trace w ++ [SessionsGetRecentlyClosed 25])).
Proof.
  intros Hs Hg.
  unfold fetchRecentlyClosedTabs, try_catch, bind, call, emit, set.
  rewrite Hs. simpl. rewrite Hg. reflexivity.
Qed.



Lemma renderedGroups_In (p : Popup.t) (g : Group) :
  In g (renderedGroups p) <->
  match g with
  | QuickActionsGroup => str_truthy (Popup.searchValue p) = true
  | MediaTabsGroup =>
      (Filters.all (Popup.filters p) || Filters.tab (Popup.filters p)) = true
      /\ mediaTabs (Popup.openTabs p) <> []
  | OpenedTabsGroup =>
      (Filters.all (Popup.filters p) || Filters.tab (Popup.filters p)) = true
  | RecentlyClosedTabsGroup =>
      (Filters.all (Popup.filters p) || Filters.tab (Popup.filters p)) = true
      /\ Popup.sessionsError p = EmptyString
  | BookmarksGroup =>
      (Filters.all (Popup.filters p) || Filters.bookmark (Popup.filters p))
      = true
      /\ Popup.bookmarkItems p <> []
  | HistoryGroup =>
      (Filters.all (Popup.filters p) || Filters.history (Popup.filters p))
      = true
      /\ Popup.historyItems p <> []
  | SessionsErrorItem => Popup.sessionsError p <> EmptyString
  end.
Proof.
  unfold renderedGroups.
  assert (Hne : forall (A : Type) (l : list A),
             nonEmpty l = true <-> l <> []).
  { intros A [|x l]; simpl; split; congruence. }
  assert (Herr : str_truthy (Popup.sessionsError p) = false
                 <-> Popup.sessionsError p = EmptyString).
  { unfold str_truthy. rewrite negb_false_iff. apply String.eqb_eq. }
  destruct g; rewrite <- ?Hne, <- ?Herr;
  destruct (str_truthy (Popup.searchValue p)),
    (Filters.all (Popup.filters p) || Filters.tab (Popup.filters p))%bool,
    (Filters.all (Popup.filters p) || Filters.bookmark (Popup.filters p))%bool,
    (Filters.all (Popup.filters p) || Filters.history (Popup.filters p))%bool,
    (nonEmpty (mediaTabs (Popup.openTabs p))),
    (nonEmpty (Popup.bookmarkItems p)),
    (nonEmpty (Popup.historyItems p)),
    (str_truthy (Popup.sessionsError p));
    simpl; intuition congruence.
Qed.

(** X8.  When the closed tabs cannot be fetched (no sessions API, or a
    rejected call) an error text is stored, the call itself resolves, and
    from then on the list shows the error item and no "Recently Closed Tabs"
    group, whichever filter is selected. *)
Theorem closed_tabs_failure_is_shown
    (host : Host.t) (w : World)
    (Hfail : Host.sessions host = None
             \/ exists g e, Host.sessions host = Some g /\ g 25 = Err e) :
  fst (fetchRecentlyClosedTabs host w) = Ok tt
  /\ Popup.sessionsError (popup (snd (fetchRecentlyClosedTabs host w)))
     <> EmptyString
  /\ (forall filters,
        In SessionsErrorItem
           (renderedGroups
              (Popup.setFilters filters
                 (popup (snd (fetchRecentlyClosedTabs host w)))))
        /\ ~ In RecentlyClosedTabsGroup
               (renderedGroups
                  (Popup.setFilters filters
                     (popup (snd (fetchRecentlyClosedTabs host w))))))
  /\ (Host.sessions host = None ->
      trace (snd (fetchRecentlyClosedTabs host w))
      = trace w ++ [ConsoleWarn "Sessions API is not available"]
      /\ Popup.recentlyClosedTabs
           (popup (snd (fetchRecentlyClosedTabs host w)))
         = Popup.recentlyClosedTabs (popup w)).
Proof.
  split; [apply fetchRecentlyClosedTabs_resolves|].
  assert (Herr : Popup.sessionsError
                   (popup (snd (fetchRecentlyClosedTabs host w)))
                 <> EmptyString).
  { destruct Hfail as [Hs|(g & e & Hs & Hg)].
    - unfold fetchRecentlyClosedTabs, try_catch, bind, emit, set.
      rewrite Hs. simpl. discriminate.
    - rewrite (fetchRecentlyClosedTabs_catches host w Hs Hg). simpl.
      discriminate. }
  split; [exact Herr|]. split.
  - intros filters. rewrite !renderedGroups_In. simpl. tauto.
  - intros Hs. unfold fetchRecentlyClosedTabs, try_catch, bind, emit, set.
    rewrite Hs. simpl. split; reflexivity.
Qed.

Lemma closed_tabs_failure_is_shown_witness :
  renderedGroups
    (popup (snd (fetchRecentlyClosedTabs hostWithoutSessions initialWorld)))
  = [OpenedTabsGroup; SessionsErrorItem]
  /\ fst (fetchRecentlyClosedTabs hostWithoutSessions initialWorld) = Ok tt.
Proof.
  split; [reflexivity|].
  exact (proj1 (@closed_tabs_failure_is_shown hostWithoutSessions
                  initialWorld (or_introl eq_refl))).
Defined.

(** X9.  Each fetcher writes its own slot and nothing else: putting the
    old value of that slot back gives the old component state, whatever the
    host answered; for the closed tabs the slot is the list together with
    the error text. *)
Theorem fetchers_write_their_own_slot
    (host : Host.t) (query : string) (w : World) :
  Popup.setOpenTabs (Popup.openTabs (popup w))
    (popup (snd (fetchOpenTabs host w))) = popup w
  /\ Popup.setRecentlyClosedTabs (Popup.recentlyClosedTabs (popup w))
       (Popup.setSessionsError (Popup.sessionsError (popup w))
          (popup (snd (fetchRecentlyClosedTabs host w)))) = popup w
  /\ Popup.setHistoryItems (Popup.historyItems (popup w))
       (popup (snd (fetchHistoryItems host query w))) = popup w
  /\ Popup.setBookmarkItems (Popup.bookmarkItems (popup w))
       (popup (snd (fetchBookmarkItems host w))) = popup w.
Proof.
  destruct w as [[o c h b f s q] t].
  unfold fetchOpenTabs, fetchRecentlyClosedTabs, fetchHistoryItems,
    fetchBookmarkItems, try_catch, bind, call, emit, set, get; simpl.
  repeat split.
  - destruct (Host.tabs_query host); reflexivity.
  - destruct (Host.sessions host) as [g|]; simpl; [|reflexivity].
    destruct (g 25); reflexivity.
  - destruct (Host.history_search host query); reflexivity.
  - destruct (str_truthy q); simpl.
    + destruct (Host.bookmarks_search host q); reflexivity.
    + destruct (Host.bookmarks_getRecent host 10); reflexivity.
Qed.

Lemma withUrl_Forall (items : list BookmarkItem.t) :
  Forall (fun item => truthy_str (BookmarkItem.url item) = true)
         (withUrl items).
Proof.
  unfold withUrl. apply Forall_forall. intros item Hin.
  now apply filter_In in Hin.
Qed.

(** X10.  Every bookmark that [fetchBookmarkItems] stores has a non-empty
    address, whatever the host returned, so selecting a listed bookmark
    always opens a tab at its address. *)
Theorem stored_bookmarks_can_be_opened (host : Host.t) (w : World) :
  Forall
    (fun item =>
       exists url,
         BookmarkItem.url item = Some url /\ url <> EmptyString
         /\ forall w',
              snd (onSelectBookmark host item w')
              = mkWorld (popup w')
                  (trace w' ++ TabsCreate url
                                :: afterCreate (Host.tabs_create host url)))
    (Popup.bookmarkItems (popup (snd (fetchBookmarkItems host w)))).
Proof.
  assert (Hopen : forall items,
            Forall
              (fun item =>
                 exists url,
                   BookmarkItem.url item = Some url /\ url <> EmptyString
                   /\ forall w',
                        snd (onSelectBookmark host item w')
                        = mkWorld (popup w')
                            (trace w' ++ TabsCreate url
                               :: afterCreate (Host.tabs_create host url)))
              (withUrl items)).
  { intros items. eapply Forall_impl; [|apply withUrl_Forall].
    intros item Hu. simpl in Hu.
    destruct (BookmarkItem.url item) as [url|] eqn:E;
      [|simpl in Hu; discriminate Hu].
    exists url. split; [reflexivity|]. simpl in Hu. split.
    - intros ->. compute in Hu. discriminate Hu.
    - intros w'. unfold onSelectBookmark, onSelectUrl. rewrite E, Hu.
      unfold detached, reopenTab, bind, call, emit. simpl.
      destruct (Host.tabs_create host url); simpl;
        rewrite <- ?app_assoc; reflexivity. }
  unfold fetchBookmarkItems, try_catch, bind, call, emit, set, get.
  destruct (str_truthy (Popup.searchValue (popup w))); simpl.
  - destruct (Host.bookmarks_search host _); simpl; [apply Hopen|constructor].
  - destruct (Host.bookmarks_getRecent host 10); simpl;
      [apply Hopen|constructor].
Qed.

(** X11.  [handleTabChange] never throws, and its two fetches do not
    depend on each other: when the tab query is rejected the closed tabs are
    fetched and stored all the same, and when the sessions API is missing
    the open tabs are. *)
Theorem handleTabChange_fetches_independently (host : Host.t) (w : World) :
  fst (handleTabChange host w) = Ok tt
  /\ (forall e g sessions,
        Host.tabs_query host = Err e ->
        Host.sessions host = Some g -> g 25 = Ok sessions ->
        popup (snd (handleTabChange host w))
        = Popup.setSessionsError EmptyString
            (Popup.setRecentlyClosedTabs
               (Array_sort byLastAccessed (sessionTabs sessions)) (popup w)))
  /\ (forall tabs,
        Host.tabs_query host = Ok tabs ->
        Host.sessions host = None ->
        Popup.openTabs (popup (snd (handleTabChange host w)))
        = Array_sort byLastAccessed tabs).
Proof.
  unfold handleTabChange, bind, detached. simpl.
  split; [reflexivity|]. split.
  - intros e g sessions Hq Hs Hg.
    rewrite (fetchRecentlyClosedTabs_resolved host _ Hs Hg). simpl.
    unfold fetchOpenTabs, bind, call. rewrite Hq. reflexivity.
  - intros tabs Hq Hs.
    rewrite (fetchOpenTabs_resolved _ _ Hq).
    unfold fetchRecentlyClosedTabs, try_catch, bind, emit, set.
    rewrite Hs. reflexivity.
Qed.

(** ** Actions on the host *)

(** X12.  [switchToTab] makes its host calls in order and stops at the
    first one that is rejected, rejecting with the same error: after a
    rejected [tabs.update] no window is asked for, after a rejected
    [windows.getCurrent] no window is focused, and after a rejected
    [windows.update] the popup stays open.  The window that gets the focus
    is the one the host names as current, the popup closes only after all
    three calls have resolved, and the component state is never touched. *)
Theorem switchToTab_closes_after_all_calls
    (host : Host.t) (tabId : Z) (w : World) :
  popup (snd (switchToTab host tabId w)) = popup w
  /\ (forall e,
        Host.tabs_update host tabId = Err e ->
        switchToTab host tabId w
        = (Err e, mkWorld (popup w) (trace w ++ [TabsUpdateActive tabId])))
  /\ (forall e,
        Host.tabs_update host tabId = Ok tt ->
        Host.windows_getCurrent host = Err e ->
        switchToTab host tabId w
        = (Err e,
           mkWorld (popup w)
             (trace w ++ [TabsUpdateActive tabId; WindowsGetCurrent])))
  /\ (forall win e,
        Host.tabs_update host tabId = Ok tt ->
        Host.windows_getCurrent host = Ok win ->
        Host.windows_update host win = Err e ->
        switchToTab host tabId w
        = (Err e,
           mkWorld (popup w)
             (trace w ++ [TabsUpdateActive tabId; WindowsGetCurrent;
                          WindowsUpdateFocused win])))
  /\ (forall win,
        Host.tabs_update host tabId = Ok tt ->
        Host.windows_getCurrent host = Ok win ->
        Host.windows_update host win = Ok tt ->
        switchToTab host tabId w
        = (Ok tt,
           mkWorld (popup w)
             (trace w ++ [TabsUpdateActive tabId; WindowsGetCurrent;
                          WindowsUpdateFocused win; WindowClose])))
  /\ (In WindowClose (trace (snd (switchToTab host tabId w))) ->
      In WindowClose (trace w)
      \/ (Host.tabs_update host tabId = Ok tt
          /\ exists win,
               Host.windows_getCurrent host = Ok win
               /\ Host.windows_update host win = Ok tt)).
Proof.
  unfold switchToTab, bind, call, emit.
  destruct (Host.tabs_update host tabId) as [[]|e1] eqn:H1; simpl.
  - destruct (Host.windows_getCurrent host) as [win|e2] eqn:H2; simpl.
    + destruct (Host.windows_update host win) as [[]|e3] eqn:H3; simpl.
      * repeat split; try discriminate.
        -- intros win' e _ [= <-] H. congruence.
        -- intros win' _ [= <-] _. now rewrite <- !app_assoc.
        -- intros _. right. split; [reflexivity|]. now exists win.
      * repeat split; try discriminate.
        -- intros win' e _ [= <-] H. rewrite H3 in H. injection H as <-.
           now rewrite <- !app_assoc.
        -- intros win' _ [= <-] H. congruence.
        -- rewrite <- !app_assoc, in_app_iff. simpl.
           intros [H|[H|[H|[H|[]]]]]; try discriminate. now left.
    + repeat split; try discriminate.
      * intros e _ [= <-]. now rewrite <- !app_assoc.
      * rewrite <- !app_assoc, in_app_iff. simpl.
        intros [H|[H|[H|[]]]]; try discriminate. now left.
  - repeat split; try discriminate.
    + intros e [= <-]. reflexivity.
    + rewrite in_app_iff. simpl.
      intros [H|[H|[]]]; try discriminate. now left.
Qed.

(** X13.  The guard [tab.id && ...] goes by truthiness: a tab whose id is 0
    is treated like a tab without id, and nothing happens; any other id
    runs [switchToTab] on it.  The handler itself never throws, also when
    the host rejects the calls. *)
Theorem onSelectTab_by_truthiness
    (host : Host.t) (tab : TabItem.t) (w : World) :
  fst (onSelectTab host tab w) = Ok tt
  /\ (TabItem.id tab = Some 0 -> onSelectTab host tab w = (Ok tt, w))
  /\ (forall tabId,
        TabItem.id tab = Some tabId -> tabId <> 0 ->
        snd (onSelectTab host tab w) = snd (switchToTab host tabId w)).
Proof.
  unfold onSelectTab. repeat split.
  - destruct (TabItem.id tab) as [n|]; [|reflexivity].
    destruct (truthy_num (Some n)); reflexivity.
  - intros ->. reflexivity.
  - intros n -> Hn. simpl. destruct (Z.eqb_spec n 0); [contradiction|].
    reflexivity.
Qed.

(** X14.  The items that reopen an address go by truthiness too: an empty
    address is treated like a missing one, and nothing happens; any other
    address is handed to [browser.tabs.create] as it is, and the popup
    closes once the tab was created.  The handler never throws. *)
Theorem onSelectUrl_by_truthiness
    (host : Host.t) (url : option string) (w : World) :
  fst (onSelectUrl host url w) = Ok tt
  /\ (url = Some EmptyString -> onSelectUrl host url w = (Ok tt, w))
  /\ (forall u,
        url = Some u -> u <> EmptyString ->
        snd (onSelectUrl host url w)
        = mkWorld (popup w)
            (trace w ++ TabsCreate u
                          :: afterCreate (Host.tabs_create host u))).
Proof.
  unfold onSelectUrl. repeat split.
  - destruct url as [u|]; [|reflexivity]. destruct (str_truthy u); reflexivity.
  - intros ->. reflexivity.
  - intros u -> Hu. rewrite (str_truthy_true Hu).
    unfold detached, reopenTab, bind, call, emit. simpl.
    destruct (Host.tabs_create host u); simpl;
      rewrite <- ?app_assoc; reflexivity.
Qed.

(** X15.  [handleSearch] knows three engines and takes every other name
    for Google.  With a non-empty query that can be encoded the address is
    the engine's search prefix followed by the encoded query; with one that
    cannot (a lone surrogate) every engine rejects with the encoder's error
    and makes no host call. *)
Theorem handleSearch_engines (host : Host.t) (w : World) :
  (forall searchEngine,
     searchEngine <> "bing" -> searchEngine <> "duckduckgo" ->
     handleSearch host searchEngine w = handleSearch host "google" w)
  /\ (Popup.searchValue (popup w) <> EmptyString ->
      forall encoded,
        encodeURIComponent (Popup.searchValue (popup w)) = Ok encoded ->
        forall searchEngine prefix,
          In (searchEngine, prefix)
             [("google", "https://www.google.com/search?q=");
              ("bing", "https://www.bing.com/search?q=");
              ("duckduckgo", "https://duckduckgo.com/?q=")] ->
          snd (handleSearch host searchEngine w)
          = mkWorld (popup w)
              (trace w
               ++ TabsCreate (prefix ++ encoded)
                  :: afterCreate
                       (Host.tabs_create host (prefix ++ encoded))))%string
  /\ (Popup.searchValue (popup w) <> EmptyString ->
      forall searchEngine e,
        encodeURIComponent (Popup.searchValue (popup w)) = Err e ->
        handleSearch host searchEngine w = (Err e, w))
  /\ (lone_surrogate (Popup.searchValue (popup w)) = false <->
      exists encoded,
        encodeURIComponent (Popup.searchValue (popup w)) = Ok encoded).
Proof.
  split; [|split; [|split]].
  - intros searchEngine Hb Hd. unfold handleSearch, bind, get.
    destruct (str_truthy (Popup.searchValue (popup w))); [|reflexivity].
    destruct (String.eqb_spec searchEngine "google") as [->|_];
      [reflexivity|].
    destruct (String.eqb_spec searchEngine "bing"); [contradiction|].
    destruct (String.eqb_spec searchEngine "duckduckgo"); [contradiction|].
    reflexivity.
  - intros Hq encoded He searchEngine prefix Hin.
    rewrite (handleSearch_encoded host searchEngine w Hq He).
    simpl in Hin.
    destruct Hin as [[= <- <-]|[[= <- <-]|[[= <- <-]|[]]]]; reflexivity.
  - intros Hq searchEngine e He. now apply handleSearch_throws.
  - unfold encodeURIComponent.
    destruct (lone_surrogate (Popup.searchValue (popup w))); split;
      try discriminate; eauto.
    intros [encoded H]. discriminate H.
Qed.

Lemma has_http_scheme_https (url : string) :
  has_http_scheme ("https://" ++ url)%string = true.
Proof. apply has_http_scheme_spec. exists url. now right. Qed.

(** X16.  The address [handleUrlNavigation] opens always starts with
    [http://] or [https://]; an address that already does is opened
    unchanged, so adding the scheme a second time changes nothing. *)
Theorem handleUrlNavigation_opens_http_address
    (host : Host.t) (url : string) (w : World) :
  snd (handleUrlNavigation host url w)
  = mkWorld (popup w)
      (trace w ++ TabsCreate (urlWithProtocol url)
                    :: afterCreate
                         (Host.tabs_create host (urlWithProtocol url)))
  /\ has_http_scheme (urlWithProtocol url) = true
  /\ urlWithProtocol (urlWithProtocol url) = urlWithProtocol url
  /\ (has_http_scheme url = true -> urlWithProtocol url = url).
Proof.
  assert (Hs : has_http_scheme (urlWithProtocol url) = true).
  { unfold urlWithProtocol. destruct (has_http_scheme url) eqn:E;
      [exact E | apply has_http_scheme_https]. }
  split; [apply handleUrlNavigation_trace|].
  split; [exact Hs|]. split.
  - unfold urlWithProtocol at 1. now rewrite Hs.
  - intros H. unfold urlWithProtocol. now rewrite H.
Qed.

Lemma isUrl_empty : isUrl EmptyString = false.
Proof. reflexivity. Qed.

(** X17.  Ctrl or Cmd with Enter on an empty query, with or without Shift,
    only prevents the default action: no tab is created and the popup stays
    open. *)
Theorem handleKeyDown_enter_on_empty_query
    (host : Host.t) (e : KeyboardEvent.t) (w : World)
    (Hq : Popup.searchValue (popup w) = EmptyString)
    (Hkey : KeyboardEvent.key e = "Enter")
    (Hmod : (KeyboardEvent.metaKey e || KeyboardEvent.ctrlKey e)%bool = true) :
  handleKeyDown host e w
  = (Ok tt, mkWorld (popup w) (trace w ++ [PreventDefault])).
Proof.
  rewrite (handleKeyDown_enter host e w Hkey Hmod), Hq, isUrl_empty.
  cbn [andb]. unfold handleSearch, bind, get. simpl. now rewrite Hq.
Qed.

Lemma handleKeyDown_enter_on_empty_query_witness :
  handleKeyDown quietHost (KeyboardEvent.mk "Enter" false true true false)
    initialWorld
  = (Ok tt, mkWorld Popup.initial [PreventDefault]).
Proof.
  exact (@handleKeyDown_enter_on_empty_query quietHost
           (KeyboardEvent.mk "Enter" false true true false) initialWorld
           eq_refl eq_refl eq_refl).
Defined.

(** ** What a URL-shaped query looks like *)

Section UrlCharacters.
Import RegExp RegExpFacts.

Lemma in_class_app (a b : list range) (c : ascii) :
  in_class (a ++ b) c = (in_class a c || in_class b c)%bool.
Proof. unfold in_class. apply existsb_app. Qed.

Lemma Lang_alphabet (r : t) (s : list ascii) :
  Lang r s -> Forall (fun c => in_class (alphabet r) c = true) s.
Proof.
  induction 1 as [|cs c Hc|a b s1 s2 _ IH1 _ IH2|a b s _ IH|a b s _ IH
                 |a|a s1 s2 _ IH1 _ IH2]; simpl.
  - constructor.
  - constructor; [exact Hc | constructor].
  - apply Forall_app. split;
      [eapply Forall_impl; [|exact IH1] | eapply Forall_impl; [|exact IH2]];
      intros c Hc; rewrite in_class_app, Hc; [reflexivity | apply orb_true_r].
  - eapply Forall_impl; [|exact IH].
    intros c Hc. now rewrite in_class_app, Hc.
  - eapply Forall_impl; [|exact IH].
    intros c Hc. rewrite in_class_app, Hc. apply orb_true_r.
  - constructor.
  - apply Forall_app. split; [exact IH1 | exact IH2].
Qed.

Lemma url_re_alphabet (c : ascii) :
  in_class (alphabet url_re) c = true -> in_class url_chars c = true.
Proof.
  destruct c as [[] [] [] [] [] [] [] []]; vm_compute; intros H;
    first [reflexivity | discriminate H].
Qed.

Lemma url_chars_exclude (c : ascii) :
  in_class url_chars c = true ->
  ~ In c (list_ascii_of_string "?#&=%@+,;!~*()[]").
Proof.
  intros H Hin. simpl in Hin.
  repeat (destruct Hin as [<-|Hin]; [discriminate H|]). exact Hin.
Qed.

(** A string that [isUrl] accepts starts with a host character. *)
Lemma isUrl_head (q : string) :
  isUrl q = true ->
  exists c rest,
    list_ascii_of_string q = c :: rest /\ in_class host_class c = true.
Proof.
  unfold isUrl. rewrite matches_Lang. unfold url_re. intros H.
  apply Lang_Cat in H as (s0 & u0 & -> & H0 & H).
  apply Lang_Cat in H as (s1 & u1 & -> & H1 & _).
  unfold Plus in H1. apply Lang_Cat in H1 as (a & u & -> & Ha & _).
  apply Lang_Class in Ha as (x & -> & Hx).
  apply Lang_Opt in H0 as [H0| ->].
  - apply Lang_scheme_re in H0 as [-> | ->]; simpl; eauto.
  - simpl. eauto.
Qed.
End UrlCharacters.

(** X19.  A URL-shaped query is not empty, starts with a digit, a lower
    case letter, a dot or a hyphen, and is made of letters, digits, [_],
    [/], [.], [-], [:] and spaces only: an address with a query string, a
    fragment, a percent escape or credentials is never URL-shaped. *)
Theorem isUrl_characters (q : string) (Hurl : isUrl q = true) :
  q <> EmptyString
  /\ (exists c rest,
        list_ascii_of_string q = c :: rest
        /\ RegExp.in_class host_class c = true)
  /\ Forall (fun c => RegExp.in_class url_chars c = true)
            (list_ascii_of_string q)
  /\ (forall c, In c (list_ascii_of_string q) ->
                ~ In c (list_ascii_of_string "?#&=%@+,;!~*()[]")).
Proof.
  assert (Hchars : Forall (fun c => RegExp.in_class url_chars c = true)
                          (list_ascii_of_string q)).
  { unfold isUrl in Hurl. apply RegExpFacts.matches_Lang in Hurl.
    apply Lang_alphabet in Hurl.
    eapply Forall_impl; [|exact Hurl]. apply url_re_alphabet. }
  split; [intros ->; discriminate Hurl|].
  split; [now apply isUrl_head|].
  split; [exact Hchars|].
  intros c Hc. apply url_chars_exclude.
  rewrite Forall_forall in Hchars. now apply Hchars.
Qed.

Lemma isUrl_characters_witness :
  isUrl "example.com/?q=1" = false /\ "https://example.com" <> EmptyString.
Proof.
  split; [reflexivity|].
  exact (proj1 (@isUrl_characters "https://example.com" eq_refl)).
Defined.

Lemma isUrl_truthy (q : string) : isUrl q = true -> str_truthy q = true.
Proof.
  intros H. apply str_truthy_true. intros ->. discriminate H.
Qed.

(** X20.  Navigation is offered only next to the web search: "Navigate to"
    is among the quick actions exactly when the query is URL-shaped, and
    then "Search google" comes first; in the submenu, "Open URL" is enabled
    only when "Search web" is; and there are no quick actions exactly when
    the query is empty. *)
Theorem navigation_is_offered_with_search (q : string) :
  (In (NavigateTo q) (quickActions q) <-> isUrl q = true)
  /\ (isUrl q = true ->
      quickActions q = [SearchGoogle q; NavigateTo q])
  /\ (SubCommand.openUrlDisabled q = false ->
      SubCommand.searchWebDisabled q = false)
  /\ (quickActions q = [] <-> q = EmptyString).
Proof.
  unfold quickActions, SubCommand.openUrlDisabled,
    SubCommand.searchWebDisabled.
  repeat split.
  - destruct (str_truthy q), (isUrl q); simpl; intuition discriminate.
  - intros H. rewrite (isUrl_truthy _ H), H. simpl. auto.
  - intros H. now rewrite (isUrl_truthy _ H), H.
  - rewrite !negb_false_iff. intros H. now apply isUrl_truthy.
  - destruct (String.eqb_spec q EmptyString) as [->|Hq]; [reflexivity|].
    rewrite (str_truthy_true Hq). discriminate.
  - intros ->. reflexivity.
Qed.

(** ** The groups on the screen *)

(** X21.  Choosing one filter while "all" is selected removes the groups of
    the other sources and nothing else: the groups left are, in the same
    order, those that belong to the chosen filter, together with the quick
    actions and the error item, which no filter hides. *)
Theorem choosing_a_filter_hides_the_other_sources
    (p : Popup.t) (k : FilterName)
    (Hall : Popup.filters p = Filters.initial) (Hk : specific k) :
  renderedGroups
    (Popup.setFilters (handleFilterClick (Popup.filters p) k) p)
  = filter (admittedBy k) (renderedGroups p).
Proof.
  unfold renderedGroups. rewrite Hall. destruct p as [o c h b f s q].
  simpl Popup.searchValue; simpl Popup.openTabs; simpl Popup.bookmarkItems;
    simpl Popup.historyItems; simpl Popup.sessionsError.
  destruct k; try (exfalso; apply Hk; reflexivity);
    destruct (str_truthy q), (nonEmpty (mediaTabs o)), (nonEmpty b),
      (nonEmpty h), (str_truthy s); reflexivity.
Qed.

Lemma choosing_a_filter_hides_the_other_sources_witness :
  renderedGroups
    (Popup.setFilters (handleFilterClick Filters.initial FHistory)
       (Popup.mk [tabWith 1 None false true] [] 
          [HistoryItem.mk "h" (Some "https://example.com/") None None None None]
          [BookmarkItem.mk "b" (Some "https://example.com/") "b" None]
          Filters.initial EmptyString "ex"))
  = [QuickActionsGroup; HistoryGroup].
Proof.
  exact (@choosing_a_filter_hides_the_other_sources
           (Popup.mk [tabWith 1 None false true] []
              [HistoryItem.mk "h" (Some "https://example.com/") None None
                 None None]
              [BookmarkItem.mk "b" (Some "https://example.com/") "b" None]
              Filters.initial EmptyString "ex")
           FHistory eq_refl ltac:(discriminate)).
Defined.

(** X22.  The group of opened tabs is rendered exactly when the filter
    admits tabs ("all" or "tab" is selected), also when it has nothing to
    list, whereas the media, bookmark and history groups are rendered
    exactly when their filter admits them and they are not empty; and the
    heading "Quick Actions" is never displayed, because the group is
    rendered only with a query and its heading is blank with a query, like
    the headings of the opened and the closed tabs, which show without
    one. *)
Theorem empty_groups_and_headings (p : Popup.t) :
  (In OpenedTabsGroup (renderedGroups p) <->
   (Filters.all (Popup.filters p) || Filters.tab (Popup.filters p))%bool
   = true)
  /\ (In MediaTabsGroup (renderedGroups p) <->
      (Filters.all (Popup.filters p) || Filters.tab (Popup.filters p))%bool
      = true
      /\ mediaTabs (Popup.openTabs p) <> [])
  /\ (In BookmarksGroup (renderedGroups p) <->
      (Filters.all (Popup.filters p)
       || Filters.bookmark (Popup.filters p))%bool = true
      /\ Popup.bookmarkItems p <> [])
  /\ (In HistoryGroup (renderedGroups p) <->
      (Filters.all (Popup.filters p)
       || Filters.history (Popup.filters p))%bool = true
      /\ Popup.historyItems p <> [])
  /\ (forall g, In g (renderedGroups p) ->
                groupHeading (Popup.searchValue p) g <> "Quick Actions")
  /\ (In QuickActionsGroup (renderedGroups p) ->
      groupHeading (Popup.searchValue p) OpenedTabsGroup = EmptyString
      /\ groupHeading (Popup.searchValue p) RecentlyClosedTabsGroup
         = EmptyString)
  /\ (~ In QuickActionsGroup (renderedGroups p) ->
      groupHeading (Popup.searchValue p) OpenedTabsGroup = "Opened Tabs"
      /\ groupHeading (Popup.searchValue p) RecentlyClosedTabsGroup
         = "Recently Closed Tabs").
Proof.
  split; [apply (renderedGroups_In p OpenedTabsGroup)|].
  split; [apply (renderedGroups_In p MediaTabsGroup)|].
  split; [apply (renderedGroups_In p BookmarksGroup)|].
  split; [apply (renderedGroups_In p HistoryGroup)|].
  split; [|split].
  - intros g Hg. destruct g; simpl; try discriminate;
      try (destruct (str_truthy (Popup.searchValue p)); discriminate).
    apply renderedGroups_In in Hg. rewrite Hg. discriminate.
  - intros H. apply renderedGroups_In in H. simpl. now rewrite H.
  - intros H. rewrite renderedGroups_In in H. simpl.
    destruct (str_truthy (Popup.searchValue p)); [|split; reflexivity].
    exfalso. now apply H.
Qed.

(** ** The submenu *)

(** Keys that [handleKeyDown] has no branch for. *)
Lemma handleKeyDown_ignores
    (host : Host.t) (e : KeyboardEvent.t) (w : World) :
  filterOfKey (KeyboardEvent.key e) = None ->
  KeyboardEvent.key e <> "Enter" ->
  handleKeyDown host e w = (Ok tt, w).
Proof.
  destruct e as [key ctrl meta shift alt]; simpl.
  unfold handleKeyDown, clickFilter, bind, get, set, emit, ret; simpl.
  intros Hk Hne. unfold filterOfKey in Hk.
  destruct (String.eqb_spec key "Enter"); [contradiction|]. simpl.
  destruct (String.eqb key "1"); [discriminate|].
  destruct (String.eqb key "2"); [discriminate|].
  destruct (String.eqb key "3"); [discriminate|].
  destruct (String.eqb key "4"); [discriminate|].
  destruct (ctrl || meta)%bool; reflexivity.
Qed.

(** X23.  Ctrl or Cmd with the key [o] toggles the submenu and consumes the
    event, whatever else is held; pressed twice it leaves the submenu as it
    was.  While the submenu is open the list does not scroll, and closing it
    restores the scrolling.  The input's own key handler ignores the chord,
    and a capital [O] does not toggle. *)
Theorem submenu_toggle
    (host : Host.t) (e : KeyboardEvent.t) (open : bool) (w : World)
    (Hkey : KeyboardEvent.key e = "o")
    (Hmod : (KeyboardEvent.metaKey e || KeyboardEvent.ctrlKey e)%bool = true) :
  SubCommand.listener e open = ([PreventDefault; StopPropagation], negb open)
  /\ snd (SubCommand.listener e (snd (SubCommand.listener e open))) = open
  /\ (forall style,
        SubCommand.overflowEffect (Some style)
          (snd (SubCommand.listener e false)) = Some "hidden"
        /\ SubCommand.overflowEffect (Some style)
             (snd (SubCommand.listener e true)) = Some EmptyString)
  /\ handleKeyDown host e w = (Ok tt, w)
  /\ (forall ctrl meta shift alt b,
        SubCommand.listener (KeyboardEvent.mk "O" ctrl meta shift alt) b
        = ([], b)).
Proof.
  assert (Hl : forall b,
             SubCommand.listener e b
             = ([PreventDefault; StopPropagation], negb b)).
  { intros b. unfold SubCommand.listener. now rewrite Hkey, Hmod. }
  split; [apply Hl|]. split; [rewrite !Hl; simpl; apply negb_involutive|].
  split; [intros style; rewrite !Hl; split; reflexivity|].
  split; [|reflexivity].
  apply handleKeyDown_ignores; rewrite Hkey; [reflexivity | discriminate].
Qed.

Lemma submenu_toggle_witness :
  SubCommand.listener (KeyboardEvent.mk "o" true false true false) false
  = ([PreventDefault; StopPropagation], true).
Proof.
  exact (proj1 (@submenu_toggle quietHost
                  (KeyboardEvent.mk "o" true false true false) false
                  initialWorld eq_refl eq_refl)).
Defined.

(** ** Buttons and typing *)

(** X24.  The mute button asks the host for the opposite of the tab's
    current muting, a tab without muting information counting as not muted;
    when the host has done it the open tabs are fetched again and stored
    sorted, and when the host rejects the change nothing is fetched and the
    state stays as it was.  The click handler itself never throws. *)
Theorem mute_button_toggles_and_refetches
    (host : Host.t) (tab : TabItem.t) (tabId : Z) (u : UiWorld)
    (Hid : TabItem.id tab = Some tabId) (Hnz : tabId <> 0) :
  fst (onClickMute host tab u) = Ok tt
  /\ (TabItem.mutedInfo tab = None -> currentlyMuted tab = false)
  /\ (forall e,
        Host.tabs_update host tabId = Err e ->
        snd (onClickMute host tab u)
        = mkUi (ui_popup u)
            (ui_trace u
             ++ [HostEffect StopPropagation;
                 TabsUpdateMuted tabId (negb (currentlyMuted tab))]))
  /\ (forall tabs,
        Host.tabs_update host tabId = Ok tt ->
        Host.tabs_query host = Ok tabs ->
        snd (onClickMute host tab u)
        = mkUi (Popup.setOpenTabs (Array_sort byLastAccessed tabs) (ui_popup u))
            (ui_trace u
             ++ [HostEffect StopPropagation;
                 TabsUpdateMuted tabId (negb (currentlyMuted tab));
                 HostEffect TabsQuery])).
Proof.
  unfold onClickMute, ui_bind, ui_emit. rewrite Hid. simpl.
  destruct (Z.eqb_spec tabId 0) as [|_]; [contradiction|]. simpl.
  split; [reflexivity|].
  split; [unfold currentlyMuted; intros ->; reflexivity|].
  unfold ui_detached, toggleMute, ui_bind, ui_call, lift. simpl.
  split.
  - intros e He. rewrite He. simpl. now rewrite <- app_assoc.
  - intros tabs Hu Hq. rewrite Hu. simpl.
    rewrite (fetchOpenTabs_resolved _ _ Hq). simpl.
    now rewrite <- !app_assoc.
Qed.

Lemma mute_button_toggles_and_refetches_witness :
  ui_trace (snd (onClickMute quietHost (tabWith 7 None false true)
                   (mkUi Popup.initial [])))
  = [HostEffect StopPropagation; TabsUpdateMuted 7 true; HostEffect TabsQuery]
  /\ fst (onClickMute quietHost (tabWith 7 None false true)
            (mkUi Popup.initial [])) = Ok tt.
Proof.
  split; [reflexivity|].
  exact (proj1 (@mute_button_toggles_and_refetches quietHost
                  (tabWith 7 None false true) 7 (mkUi Popup.initial [])
                  eq_refl ltac:(discriminate))).
Defined.

Lemma In_map_HostEffect (e : Effect) (l : list Effect) :
  In (HostEffect e) (map HostEffect l) -> In e l.
Proof.
  intros H. apply in_map_iff in H as (x & [= ->] & Hx). exact Hx.
Qed.

Lemma fetchOpenTabs_no_close (host : Host.t) (w : World) :
  In WindowClose (trace (snd (fetchOpenTabs host w))) ->
  In WindowClose (trace w).
Proof.
  unfold fetchOpenTabs, bind, call, set.
  destruct (Host.tabs_query host); simpl; rewrite in_app_iff; simpl;
    intros [H|[H|[]]]; try discriminate; exact H.
Qed.

Lemma onClickMute_trace (host : Host.t) (tab : TabItem.t) (u : UiWorld) :
  exists rest,
    ui_trace (snd (onClickMute host tab u))
    = ui_trace u ++ HostEffect StopPropagation :: rest
    /\ ~ In (HostEffect WindowClose) rest.
Proof.
  unfold onClickMute, ui_bind, ui_emit, ui_ret. simpl.
  destruct (TabItem.id tab) as [n|]; simpl;
    [destruct (Z.eqb_spec n 0) as [->|Hn]; simpl|];
    try (exists []; split; [reflexivity | intros []]).
  unfold ui_detached, toggleMute, ui_bind, ui_call, lift. simpl.
  destruct (Host.tabs_update host n) as [[]|e]; simpl.
  - destruct (fetchOpenTabs host (mkWorld (ui_popup u) []))
      as [r w'] eqn:Hf. simpl.
    exists (TabsUpdateMuted n (negb (currentlyMuted tab))
            :: map HostEffect (trace w')).
    split; [now rewrite <- !app_assoc|].
    intros [H|H]; [discriminate H|].
    apply In_map_HostEffect in H.
    change w' with (snd (r, w')) in H. rewrite <- Hf in H.
    apply fetchOpenTabs_no_close in H. exact H.
  - exists [TabsUpdateMuted n (negb (currentlyMuted tab))].
    split; [now rewrite <- !app_assoc|].
    intros [H|[]]. discriminate H.
Qed.

Lemma onClickClose_trace (tab : TabItem.t) (u : UiWorld) :
  exists rest,
    snd (onClickClose tab u)
    = mkUi (ui_popup u) (ui_trace u ++ HostEffect StopPropagation :: rest)
    /\ ~ In (HostEffect WindowClose) rest.
Proof.
  unfold onClickClose, ui_bind, ui_emit, ui_ret. simpl.
  destruct (TabItem.id tab) as [n|]; simpl;
    [destruct (Z.eqb_spec n 0) as [->|Hn]; simpl|];
    try (exists []; split; [reflexivity | intros []]).
  exists [TabsRemove n]. split; [now rewrite <- !app_assoc|].
  intros [H|[]]. discriminate H.
Qed.

(** X25.  A click on the mute or on the close button of an item never
    closes the popup and first stops the propagation of the click, so the
    item under the button is not selected; the close button leaves the
    component state alone, and on a tab without id (or with id 0) either
    button does nothing more. *)
Theorem item_buttons_keep_the_popup_open
    (host : Host.t) (tab : TabItem.t) (u : UiWorld) :
  (exists rest,
     ui_trace (snd (onClickMute host tab u))
     = ui_trace u ++ HostEffect StopPropagation :: rest
     /\ ~ In (HostEffect WindowClose) rest)
  /\ (exists rest,
        snd (onClickClose tab u)
        = mkUi (ui_popup u) (ui_trace u ++ HostEffect StopPropagation :: rest)
        /\ ~ In (HostEffect WindowClose) rest)
  /\ fst (onClickClose tab u) = Ok tt
  /\ (TabItem.id tab = None \/ TabItem.id tab = Some 0 ->
      snd (onClickMute host tab u)
      = mkUi (ui_popup u) (ui_trace u ++ [HostEffect StopPropagation])
      /\ snd (onClickClose tab u)
         = mkUi (ui_popup u) (ui_trace u ++ [HostEffect StopPropagation])).
Proof.
  split; [apply onClickMute_trace|]. split; [apply onClickClose_trace|].
  unfold onClickMute, onClickClose, ui_bind, ui_emit, ui_ret. simpl.
  split.
  - destruct (TabItem.id tab) as [n|]; simpl; [|reflexivity].
    destruct (n =? 0); reflexivity.
  - intros [-> | ->]; split; reflexivity.
Qed.

